(** * mongo-migrator: the migration manager, embedded and verified

    Shallow embedding of [mongo_migrator/migrator.py] (class
    [MigrationManager]) and of the unit interface of
    [mongo_migrator/base_migrator.py].

    Modelling conventions.
    - A Python [str] is a [string]; a character stands for the code point
      of the same number (0..255).  File names with code points above 255
      are outside the model.
    - A Python [int] is a [Z].
    - The [migrations] collection is the list of its documents in insertion
      order; [find_one] returns the first match and [delete_one] removes the
      first match.  Of the driver calls, [insert_one] fails on an [order]
      that does not fit 64 bits; the lookups and the deletion are taken not
      to fail.
    - [self.db] is the [migrations] collection together with the remaining
      collections (type [D]); a migration unit is handed both, as the
      source hands it [self.db], and may write either.
    - [await] is sequencing: the manager never has two operations in flight.
    - The calls that matter for the ordering claims are recorded in a trace
      (ghost state: the source keeps no such log). *)

From Stdlib Require Import ZArith List String Ascii Bool Lia Permutation Sorted.
Import ListNotations.

Set Implicit Arguments.
Local Open Scope string_scope.

(** ** Python strings *)

Module PyStr.

(** [s.startswith(p)] *)
Definition startswith (s p : string) : bool := String.prefix p s.

(** [s.endswith(suffix)]: some tail of [s] is [suffix]. *)
Fixpoint endswith (s suffix : string) : bool :=
  if String.eqb s suffix then true
  else match s with
       | EmptyString => false
       | String _ s' => endswith s' suffix
       end.

(** [s.split(sep)[0]] for a one-character [sep]: the part of [s] before the
    first [sep], all of [s] when there is none. *)
Fixpoint split_head (sep : ascii) (s : string) : string :=
  match s with
  | EmptyString => EmptyString
  | String c s' =>
      if Ascii.eqb c sep then EmptyString else String c (split_head sep s')
  end.

(** [s[:-3]] *)
Definition drop_last3 (s : string) : string :=
  substring 0 (String.length s - 3) s.

(** [s.replace(a, b)] for one-character [a] and [b]. *)
Fixpoint replace (a b : ascii) (s : string) : string :=
  match s with
  | EmptyString => EmptyString
  | String c s' => String (if Ascii.eqb c a then b else c) (replace a b s')
  end.

(** The truth value of a string: non-empty. *)
Definition truthy (s : string) : bool :=
  match s with EmptyString => false | String _ _ => true end.

(** *** [int(s)] in base 10

    CPython's [PyLong_FromUnicodeObject]: white space is skipped on both
    sides, one sign is allowed, then come decimal digits, single
    underscores allowed between two digits; anything else is a
    [ValueError].  White space is the C locale's (9..13 and 32) plus the
    non-ASCII Unicode spaces, of which U+0085 and U+00A0 lie below 256.
    (The limit on the number of digits, 4300 by default since 3.11, is
    above the length of any file name and is left out.) *)

Definition is_space (c : ascii) : bool :=
  let n := nat_of_ascii c in
  ((9 <=? n) && (n <=? 13) || (n =? 32) || (n =? 133) || (n =? 160))%nat.

Definition digit_value (c : ascii) : option Z :=
  let n := nat_of_ascii c in
  if ((48 <=? n) && (n <=? 57))%nat then Some (Z.of_nat (n - 48)) else None.

Fixpoint skip_spaces (s : string) : string :=
  match s with
  | String c s' => if is_space c then skip_spaces s' else s
  | EmptyString => s
  end.

(** The digit scan; [prev_underscore] tells that the last character read
    was an underscore, which must then be followed by a digit.  Returns
    the value read and the unread rest. *)
Fixpoint scan_digits (prev_underscore : bool) (acc : Z) (s : string)
  : option (Z * string) :=
  match s with
  | EmptyString => if prev_underscore then None else Some (acc, s)
  | String c s' =>
      match digit_value c with
      | Some d => scan_digits false (10 * acc + d)%Z s'
      | None =>
          if Ascii.eqb c "_"
          then (if prev_underscore then None else scan_digits true acc s')
          else (if prev_underscore then None else Some (acc, s))
      end
  end.

Definition int (s : string) : option Z :=
  let s1 := skip_spaces s in
  let '(sign, s2) :=
    match s1 with
    | String "+" r => (1%Z, r)
    | String "-" r => ((-1)%Z, r)
    | _ => (1%Z, s1)
    end in
  match s2 with
  | EmptyString => None
  | String c _ =>
      match digit_value c with
      | None => None
      | Some _ =>
          match scan_digits false 0 s2 with
          | None => None
          | Some (v, rest) =>
              match skip_spaces rest with
              | EmptyString => Some (sign * v)%Z
              | String _ _ => None
              end
          end
      end
  end.

(** *** [os.path.join] (posixpath) *)

Definition join2 (path b : string) : string :=
  if startswith b "/" then b
  else if negb (truthy path) || endswith path "/" then path ++ b
  else path ++ "/" ++ b.

Definition join (a : string) (p : list string) : string :=
  fold_left join2 p a.

End PyStr.


(** ** Exceptions

    The exceptions the manager raises itself, and [OtherError] for whatever
    else a loader or a migration unit may raise.  Line 97 raises a plain
    [Exception] whose message is
    [Previous migration with order <n> has not been applied.]; it is
    represented by its constructor and the [<n>] of the message.
    [OverflowError] is what the driver raises when a document holds an
    integer outside 64 bits. *)

Inductive exn : Type :=
| FileNotFoundError (path : string)
| NotADirectoryError (path : string)
| ValueError (literal : string)
| PreviousNotApplied (previous_migration_order : Z)
| OverflowError
| OtherError (what : string).

(** ** The [migrations] collection and the database *)

Record document : Type := Document
  { name : string; order : Z; applied : bool }.

(** [self.db]: the [migrations] collection (line 40) and the collections
    beside it. *)
Definition database (D : Type) : Type := (list document * D)%type.

(** ** Migration units ([base_migrator.py])

    [class_name] is [migration.__class__.__name__].  An operation gets the
    database, leaves it as it likes -- the [migrations] collection
    included -- and either returns ([None]) or raises ([Some e]). *)

Module BaseMigration.
Record t (D : Type) : Type := Build
  { class_name : string;
    migrate : database D -> database D * option exn;
    rollback_migration : database D -> database D * option exn }.
End BaseMigration.

Module Collection.

Inductive filter_doc : Type :=
| by_order (n : Z)          (* {"order": n} *)
| by_name (s : string).     (* {"name": s}  *)

Definition matches (q : filter_doc) (r : document) : bool :=
  match q with
  | by_order n => (order r =? n)%Z
  | by_name s => String.eqb (name r) s
  end.

Definition find_one (q : filter_doc) (c : list document) : option document :=
  find (matches q) c.

Definition insert_one (r : document) (c : list document) : list document :=
  c ++ [r].

(** The integers a document can hold. *)
Definition int64 (n : Z) : bool :=
  ((- 2 ^ 63 <=? n) && (n <=? 2 ^ 63 - 1))%Z.

Fixpoint delete_one (q : filter_doc) (c : list document) : list document :=
  match c with
  | [] => []
  | r :: c' => if matches q r then c' else r :: delete_one q c'
  end.

End Collection.

(** ** The world the manager runs in *)

Inductive event : Type :=
| EvListdir (path : string)                 (* os.listdir(path) *)
| EvLoad (module_name path : string)        (* lines 83-87 / 117-121 *)
| EvMigrate (class_name : string)           (* migration.migrate(self.db) *)
| EvRollback (class_name : string).         (* migration.rollback_migration(self.db) *)

Inductive node : Type :=
| Absent
| NotDirectory
| Directory (entries : list string).

Section Manager.

Context {D : Type}.

(** What the manager reads but never changes: the working directory, the
    file system, and what loading a migration file gives (the instance of
    its [Migration] class, or the exception of lines 83-87). *)
Record environment : Type := Environment
  { getcwd : string;
    stat : string -> node;
    load : string -> string -> exn + BaseMigration.t D }.

Record world : Type := World
  { migrations_collection : list document;
    db : D;
    trace : list event }.

(** State and exceptions. *)
Definition M (A : Type) : Type := world -> (exn + A) * world.

Definition ret {A} (a : A) : M A := fun w => (inr a, w).
Definition raise {A} (e : exn) : M A := fun w => (inl e, w).
Definition bind {A B} (c : M A) (k : A -> M B) : M B :=
  fun w => match c w with
           | (inl e, w') => (inl e, w')
           | (inr a, w') => k a w'
           end.

Definition log (ev : event) : M unit :=
  fun w => (inr tt, World (migrations_collection w) (db w) (trace w ++ [ev])).

End Manager.

Arguments environment : clear implicits.
Arguments world : clear implicits.
Arguments M : clear implicits.

Declare Scope py_scope.
Delimit Scope py_scope with py.
Notation "x <- c ;; k" := (bind c (fun x => k))
  (at level 61, c at next level, right associativity) : py_scope.
Notation "c ;; k" := (bind c (fun _ => k))
  (at level 61, right associativity) : py_scope.
Local Open Scope py_scope.

(** [sorted(l, key=key)]: the keys of all elements are computed first, from
    left to right, so the first key that raises ends the call; the sort
    itself is stable. *)
Module PySorted.
Section Sorting.

Context {D A : Type}.

Fixpoint decorate (key : A -> M D Z) (l : list A) : M D (list (Z * A)) :=
  match l with
  | [] => ret []
  | x :: l' => k <- key x ;; r <- decorate key l' ;; ret ((k, x) :: r)
  end.

Fixpoint insert (k : Z) (x : A) (l : list (Z * A)) : list (Z * A) :=
  match l with
  | [] => [(k, x)]
  | (k', y) :: l' =>
      if (k' <? k)%Z then (k', y) :: insert k x l' else (k, x) :: l
  end.

Definition sort (l : list (Z * A)) : list (Z * A) :=
  fold_right (fun kx acc => insert (fst kx) (snd kx) acc) [] l.

Definition sorted (l : list A) (key : A -> M D Z) : M D (list A) :=
  kl <- decorate key l ;; ret (map snd (sort kl)).

End Sorting.
End PySorted.

(** ** [MigrationManager] *)

Module MigrationManager.
Section Methods.

Context {D : Type}.
Variable env : environment D.

(** [for x in l: body(x)] *)
Fixpoint for_each {A} (l : list A) (body : A -> M D unit) : M D unit :=
  match l with
  | [] => ret tt
  | x :: l' => body x ;; for_each l' body
  end.

(** [int(s)] as a statement: the value, or [ValueError]. *)
Definition int (s : string) : M D Z :=
  match PyStr.int s with
  | Some n => ret n
  | None => raise (ValueError s)
  end.

(** Lines 83-87 and 117-121: import the file and instantiate its
    [Migration] class. *)
Definition load_migration (migration_module_name migration_path : string)
  : M D (BaseMigration.t D) :=
  log (EvLoad migration_module_name migration_path) ;;
  match load env migration_module_name migration_path with
  | inl e => raise e
  | inr migration => ret migration
  end.

Definition find_one (q : Collection.filter_doc) : M D (option document) :=
  fun w => (inr (Collection.find_one q (migrations_collection w)), w).

(** [insert_one]: the driver encodes the document first and refuses an
    integer that does not fit 64 bits; nothing is written then. *)
Definition insert_one (r : document) : M D unit :=
  fun w => if Collection.int64 (order r)
           then (inr tt,
                 World (Collection.insert_one r (migrations_collection w))
                       (db w) (trace w))
           else (inl OverflowError, w).

Definition delete_one (q : Collection.filter_doc) : M D unit :=
  fun w => (inr tt, World (Collection.delete_one q (migrations_collection w))
                          (db w) (trace w)).

(** A unit's operation on [self.db]: the database is left as the
    operation left it, whether it returned or raised. *)
Definition call (ev : event) (op : database D -> database D * option exn)
  : M D unit :=
  log ev ;;
  fun w => let '((c, d), r) := op (migrations_collection w, db w) in
           (match r with Some e => inl e | None => inr tt end,
            World c d (trace w)).

(** Lines 72-107. *)
Definition apply_migration (migration_module_name migration_path : string)
  : M D unit :=
  migration <- load_migration migration_module_name migration_path ;;
  let migration_name := BaseMigration.class_name migration in
  migration_order <- int (PyStr.split_head "_" migration_module_name) ;;
  (if (migration_order >? 1)%Z then
     let previous_migration_order := (migration_order - 1)%Z in
     previous_migration <- find_one (Collection.by_order previous_migration_order) ;;
     match previous_migration with
     | None => raise (PreviousNotApplied previous_migration_order)
     | Some _ => ret tt
     end
   else ret tt) ;;
  found <- find_one (Collection.by_name migration_name) ;;
  match found with
  | None =>
      call (EvMigrate migration_name) (BaseMigration.migrate migration) ;;
      insert_one (Document migration_name migration_order true)
  | Some _ => ret tt
  end.

(** Lines 109-126. *)
Definition rollback_migration (migration_module_name migration_path : string)
  : M D unit :=
  migration <- load_migration migration_module_name migration_path ;;
  let migration_name := BaseMigration.class_name migration in
  call (EvRollback migration_name) (BaseMigration.rollback_migration migration) ;;
  delete_one (Collection.by_name migration_name).

(** Lines 50-53.  [module_name] is [None] or a string; both [None] and the
    empty string are false. *)
Definition migrations_path_of (module_name : option string)
  (migrations_dir : string) : string :=
  match module_name with
  | Some m =>
      if PyStr.truthy m
      then PyStr.join (getcwd env) [PyStr.replace "." "/" m; migrations_dir]
      else PyStr.join (getcwd env) [migrations_dir]
  | None => PyStr.join (getcwd env) [migrations_dir]
  end.

(** [os.listdir] *)
Definition listdir (path : string) : M D (list string) :=
  log (EvListdir path) ;;
  match stat env path with
  | Directory entries => ret entries
  | NotDirectory => raise (NotADirectoryError path)
  | Absent => raise (FileNotFoundError path)
  end.

(** [os.path.exists] *)
Definition exists_ (path : string) : bool :=
  match stat env path with Absent => false | _ => true end.

(** The filter of line 62. *)
Definition is_candidate (f : string) : bool :=
  PyStr.endswith f ".py" && negb (PyStr.startswith f "__").

(** The key of line 64. *)
Definition sort_key (x : string) : M D Z :=
  int (PyStr.split_head "_" x).

(** Lines 55-65: the value of the local [migration_files]. *)
Definition migration_files (migrations_path : string) : M D (list string) :=
  if negb (exists_ migrations_path)
  then raise (FileNotFoundError migrations_path)
  else
    entries <- listdir migrations_path ;;
    PySorted.sorted (filter is_candidate entries) sort_key.

(** Lines 42-70. *)
Definition apply_all_migrations (module_name : option string)
  (migrations_dir : string) : M D unit :=
  let migrations_path := migrations_path_of module_name migrations_dir in
  files <- migration_files migrations_path ;;
  for_each files (fun filename =>
    let migration_module_name := PyStr.drop_last3 filename in
    let migration_path := PyStr.join migrations_path [filename] in
    apply_migration migration_module_name migration_path).

End Methods.
End MigrationManager.

(** ** The command line ([__import_settings] and [main], lines 129-173)

    [entry_point] hands [main] the namespace [argparse] built; the fields
    [main] reads are [command], [module] and [migration]. *)

Module Cli.
Section Main.

Context {D : Type}.

(** Besides the manager's environment: what executing [settings.py]
    raises, if anything (line 144), and what reading
    [settings.mongo_settings] and building the manager from it raises, if
    anything (lines 156-157). *)
Record host : Type := Host
  { host_env : environment D;
    settings_exec : option exn;
    manager_init : option exn }.

Record namespace : Type := Namespace
  { command : string;
    module : option string;
    migration : string }.

Variable h : host.

(** Propagating what a step raised. *)
Definition raising (r : option exn) : M D unit :=
  match r with
  | Some e => raise e
  | None => ret tt
  end.

(** Lines 129-145. *)
Definition import_settings : M D unit :=
  let project_root := getcwd (host_env h) in
  let settings_path := PyStr.join project_root ["settings.py"] in
  if negb (MigrationManager.exists_ (host_env h) settings_path)
  then raise (FileNotFoundError settings_path)
  else raising (settings_exec h).

(** The path of lines 161-165 and 168-172: the same expression in both
    branches of [main]. *)
Definition migration_path_of (args : namespace) : string :=
  match module args with
  | Some m =>
      if PyStr.truthy m
      then PyStr.join (getcwd (host_env h))
             [PyStr.replace "." "/" m; "migrations"; (migration args ++ ".py")%string]
      else PyStr.join (getcwd (host_env h))
             ["migrations"; (migration args ++ ".py")%string]
  | None =>
      PyStr.join (getcwd (host_env h))
        ["migrations"; (migration args ++ ".py")%string]
  end.

(** Lines 148-173. *)
Definition main (args : namespace) : M D unit :=
  import_settings ;;
  raising (manager_init h) ;;
  if String.eqb (command args) "migrate" then
    MigrationManager.apply_all_migrations (host_env h) (module args) "migrations"
  else if String.eqb (command args) "migrate-one" then
    MigrationManager.apply_migration (host_env h) (migration args)
      (migration_path_of args)
  else if String.eqb (command args) "rollback" then
    MigrationManager.rollback_migration (host_env h) (migration args)
      (migration_path_of args)
  else ret tt.

End Main.
End Cli.

Arguments Cli.host : clear implicits.

(** ** Vocabulary of the statements *)

Section Vocabulary.

Context {D : Type}.

(** The sequential gate of lines 91-99 as one test: nothing to check for
    an order of at most 1, otherwise the predecessor's record must be
    there. *)
Definition gate_open (n : Z) (c : list document) : bool :=
  negb (n >? 1)%Z
  || match Collection.find_one (Collection.by_order (n - 1)) c with
     | Some _ => true
     | None => false
     end.

(** The world [w] with the events [evs] added to its trace and nothing
    else changed. *)
Definition logged (w : world D) (evs : list event) : world D :=
  World (migrations_collection w) (db w) (trace w ++ evs).

(** The files loaded, the units applied and the units reverted, in the
    order of the calls. *)
Definition loads (t : list event) : list string :=
  flat_map (fun ev => match ev with EvLoad _ p => [p] | _ => [] end) t.

Definition migrates (t : list event) : list string :=
  flat_map (fun ev => match ev with EvMigrate c => [c] | _ => [] end) t.

Definition rollbacks (t : list event) : list string :=
  flat_map (fun ev => match ev with EvRollback c => [c] | _ => [] end) t.

(** An operation of a unit that does not write the [migrations]
    collection: whatever database it is handed, the collection it leaves
    is the one it got.  It may read it and may write everything else. *)
Definition leaves_collection (op : database D -> database D * option exn)
  : Prop :=
  forall c d, fst (fst (op (c, d))) = c.

(** An environment none of whose units writes the [migrations]
    collection. *)
Definition quiet (env : environment D) : Prop :=
  forall nm path u,
    load env nm path = inr u ->
    leaves_collection (BaseMigration.migrate u)
    /\ leaves_collection (BaseMigration.rollback_migration u).

(** The name [s] is recorded in the collection [c]; the collection holds
    what lines 91-99 ask for before a unit of order [n] is applied. *)
Definition recorded (s : string) (c : list document) : Prop :=
  exists r, In r c /\ name r = s.

Definition predecessor_recorded (n : Z) (c : list document) : Prop :=
  (n <= 1)%Z \/ exists r, In r c /\ order r = (n - 1)%Z.

(** Uniqueness of [name] in the collection. *)
Definition names_unique (c : list document) : Prop :=
  NoDup (map name c).

(** The worlds the two single-migration methods can produce from an empty
    collection; the files on disk may change between two calls, so every
    step has an environment of its own. *)
Inductive reachable : world D -> Prop :=
| reachable_empty d t : reachable (World [] d t)
| reachable_apply env nm path w :
    reachable w -> reachable (snd (MigrationManager.apply_migration env nm path w))
| reachable_rollback env nm path w :
    reachable w -> reachable (snd (MigrationManager.rollback_migration env nm path w)).

(** The same with units that do not write the [migrations] collection. *)
Inductive reachable_quiet : world D -> Prop :=
| reachable_quiet_empty d t : reachable_quiet (World [] d t)
| reachable_quiet_apply env nm path w :
    quiet env -> reachable_quiet w ->
    reachable_quiet (snd (MigrationManager.apply_migration env nm path w))
| reachable_quiet_rollback env nm path w :
    quiet env -> reachable_quiet w ->
    reachable_quiet (snd (MigrationManager.rollback_migration env nm path w)).

End Vocabulary.

(** ** Concrete migration sets

    Units that count their calls in the collections (a [nat]), a directory
    [/srv/app/migrations] and loaders for its files. *)

Module Fixture.

Definition counting (class_name : string) : BaseMigration.t nat :=
  BaseMigration.Build class_name
    (fun cd => ((fst cd, S (snd cd)), None))
    (fun cd => ((fst cd, pred (snd cd)), None)).

Definition failing (class_name : string) (e : exn) : BaseMigration.t nat :=
  BaseMigration.Build class_name
    (fun cd => ((fst cd, S (snd cd)), Some e))
    (fun cd => ((fst cd, pred (snd cd)), Some e)).

Definition dir : string := "/srv/app/migrations".

Definition stat_of (entries : list string) (p : string) : node :=
  if String.eqb p dir then Directory entries else Absent.

Definition loader (a b c : BaseMigration.t nat) (module_name path : string)
  : exn + BaseMigration.t nat :=
  if String.eqb path "/srv/app/migrations/0001_a.py" then inr a
  else if String.eqb path "/srv/app/migrations/0002_b.py" then inr b
  else if String.eqb path "/srv/app/migrations/0003_c.py" then inr c
  else inl (FileNotFoundError path).

Definition listing : list string :=
  ["0002_b.py"; "__init__.py"; "0001_a.py"; "README.md"; "0003_c.py"].

(** Three files whose classes have names of their own. *)
Definition env_distinct : environment nat :=
  Environment "/srv" (stat_of listing)
    (loader (counting "CreateA") (counting "CreateB") (counting "CreateC")).

(** Two files written like [migrations/0001_example.py]: each defines
    [class Migration(BaseMigration)]. *)
Definition env_same : environment nat :=
  Environment "/srv" (stat_of ["0001_a.py"; "0002_b.py"])
    (loader (counting "Migration") (counting "Migration") (counting "Migration")).

(** The scenario of three files, all with [class Migration]. *)
Definition env_same3 : environment nat :=
  Environment "/srv" (stat_of ["0001_a.py"; "0002_b.py"; "0003_c.py"])
    (loader (counting "Migration") (counting "Migration") (counting "Migration")).

(** The second unit raises. *)
Definition boom : exn := OtherError "OperationFailure".

Definition env_failing : environment nat :=
  Environment "/srv" (stat_of listing)
    (loader (counting "CreateA") (failing "CreateB" boom) (counting "CreateC")).

(** A directory with a file that is no migration. *)
Definition env_notes : environment nat :=
  Environment "/srv" (stat_of ["0001_a.py"; "notes.py"])
    (loader (counting "CreateA") (counting "CreateB") (counting "CreateC")).

(** The unit of each file of [env_distinct]. *)
Definition unit_of_file (f : string) : BaseMigration.t nat :=
  if String.eqb f "0001_a.py" then counting "CreateA"
  else if String.eqb f "0002_b.py" then counting "CreateB"
  else counting "CreateC".

(** A unit that records itself: its [migrate] inserts a record of its own
    name into [db.migrations] and returns. *)
Definition sneaky : BaseMigration.t nat :=
  BaseMigration.Build "Sneaky"
    (fun cd => (((fst cd ++ [Document "Sneaky" 1 false])%list, snd cd), None))
    (fun cd => (((fst cd ++ [Document "Undone" 0 false])%list, snd cd), None)).

(** A unit whose operations empty [db.migrations] and then raise. *)
Definition vandal : BaseMigration.t nat :=
  BaseMigration.Build "Vandal"
    (fun cd => (([], snd cd), Some (OtherError "OperationFailure")))
    (fun cd => (([], snd cd), Some (OtherError "OperationFailure"))).

Definition env_sneaky : environment nat :=
  Environment "/srv" (stat_of listing) (fun _ _ => inr sneaky).

Definition env_vandal : environment nat :=
  Environment "/srv" (stat_of listing) (fun _ _ => inr vandal).

Definition w0 : world nat := World [] 0%nat [].

Definition path_a : string := "/srv/app/migrations/0001_a.py".
Definition path_b : string := "/srv/app/migrations/0002_b.py".

(** [0001_a] and [0002_b] applied, then [0001_a] rolled back. *)
Definition w_only_b : world nat :=
  snd (MigrationManager.rollback_migration env_distinct "0001_a" path_a
    (snd (MigrationManager.apply_migration env_distinct "0002_b" path_b
      (snd (MigrationManager.apply_migration env_distinct "0001_a" path_a w0))))).

(** [0001_a] and [0002_b] applied. *)
Definition w_ab : world nat :=
  snd (MigrationManager.apply_migration env_distinct "0002_b" path_b
    (snd (MigrationManager.apply_migration env_distinct "0001_a" path_a w0))).

(** [0001_a] applied. *)
Definition w_a : world nat :=
  snd (MigrationManager.apply_migration env_distinct "0001_a" path_a w0).

End Fixture.

(** The key line 64 gives to a file name, when it has one. *)
Definition key_of (f : string) : option Z :=
  PyStr.int (PyStr.split_head "_" f).

Definition key_default (f : string) : Z :=
  match key_of f with Some k => k | None => 0%Z end.

Definition has_key (f : string) : bool :=
  match key_of f with Some _ => true | None => false end.

(** The characters of a string. *)
Definition chars (s : string) : list ascii := list_ascii_of_string s.

(** The characters [int] can accept: spaces, digits, signs, underscores. *)
Definition int_char (c : ascii) : bool :=
  PyStr.is_space c
  || match PyStr.digit_value c with Some _ => true | None => false end
  || Ascii.eqb c "+" || Ascii.eqb c "-" || Ascii.eqb c "_".

(** The order of a keyed list, and sorting a list by a key that cannot
    raise: what [PySorted.sorted] returns once all keys are there. *)
Definition le_key {A} (p q : Z * A) : Prop := (fst p <= fst q)%Z.

Definition sort_by {A} (key : A -> Z) (l : list A) : list A :=
  map snd (PySorted.sort (map (fun x => (key x, x)) l)).

(** The orders [1..n]. *)
Definition orders_upto (n : nat) : list Z := map Z.of_nat (seq 1 n).

(** The body of the loop of lines 67-70, for one file name. *)
Definition loop_body {D} (env : environment D) (migrations_path filename : string)
  : M D unit :=
  MigrationManager.apply_migration env (PyStr.drop_last3 filename)
    (PyStr.join migrations_path [filename]).

(** For a choice [unit_of] of the unit each file holds: the name of a file's
    unit, the record its application inserts, and what makes a file one the
    loop can apply -- a name ending in [.py] with a key, whose unit loads
    and whose [migrate] returns and does not write the [migrations]
    collection. *)
Definition unit_name {D} (unit_of : string -> BaseMigration.t D) (f : string)
  : string :=
  BaseMigration.class_name (unit_of f).

Definition record_of {D} (unit_of : string -> BaseMigration.t D) (f : string)
  : document :=
  Document (unit_name unit_of f) (key_default f) true.

Definition applicable {D} (env : environment D) (path : string)
  (unit_of : string -> BaseMigration.t D) (f : string) : Prop :=
  PyStr.endswith f ".py" = true
  /\ key_of f = Some (key_default f)
  /\ load env (PyStr.drop_last3 f) (PyStr.join path [f]) = inr (unit_of f)
  /\ (forall cd, snd (BaseMigration.migrate (unit_of f) cd) = None)
  /\ leaves_collection (BaseMigration.migrate (unit_of f)).

(** Strings of decimal digits and their value. *)
Fixpoint all_digits (s : string) : bool :=
  match s with
  | EmptyString => true
  | String c s' =>
      match PyStr.digit_value c with
      | Some _ => all_digits s'
      | None => false
      end
  end.

Fixpoint decimal (acc : Z) (s : string) : Z :=
  match s with
  | EmptyString => acc
  | String c s' =>
      match PyStr.digit_value c with
      | Some d => decimal (10 * acc + d) s'
      | None => acc
      end
  end.

(** ** Vocabulary for runs and for the command line *)

(** What a run that applies every file of [files] leaves: each unit's
    [migrate] works on the database as the calls before it and the
    manager's inserts left it, and the manager then appends the record. *)
Definition migrated {D} (unit_of : string -> BaseMigration.t D)
  (files : list string) (cd : database D) : database D :=
  fold_left
    (fun cd f =>
       let cd1 := fst (BaseMigration.migrate (unit_of f) cd) in
       ((fst cd1 ++ [record_of unit_of f])%list, snd cd1))
    files cd.

(** A host whose [settings.py] is there and imports, and whose manager can
    be built. *)
Definition settings_fine {D} (h : Cli.host D) : Prop :=
  stat (Cli.host_env h) (PyStr.join (getcwd (Cli.host_env h)) ["settings.py"])
  <> Absent
  /\ Cli.settings_exec h = None
  /\ Cli.manager_init h = None.

Module RunFixture.


(** The listing of [Fixture.env_distinct], the other way round. *)
Definition env_reversed : environment nat :=
  Environment "/srv"
    (Fixture.stat_of
       ["0003_c.py"; "README.md"; "0001_a.py"; "__init__.py"; "0002_b.py"])
    (load Fixture.env_distinct).

(** Two files of order 1. *)
Definition env_tie : environment nat :=
  Environment "/srv" (Fixture.stat_of ["0001_b.py"; "1_a.py"; "x.txt"])
    (load Fixture.env_distinct).


(** A package directory with no migration in it. *)
Definition env_bare : environment nat :=
  Environment "/srv"
    (Fixture.stat_of ["__init__.py"; "README.md"; "__pycache__"])
    (load Fixture.env_distinct).

End RunFixture.

Module CliFixture.

(** The files of [Fixture.listing] and a [settings.py] beside them. *)
Definition stat_with_settings (p : string) : node :=
  if String.eqb p "/srv/settings.py" then NotDirectory
  else Fixture.stat_of Fixture.listing p.

Definition env : environment nat :=
  Environment "/srv" stat_with_settings
    (Fixture.loader (Fixture.counting "CreateA") (Fixture.counting "CreateB")
       (Fixture.counting "CreateC")).

Definition host_ok : Cli.host nat := Cli.Host env None None.

(** No [settings.py]. *)
Definition host_bare : Cli.host nat := Cli.Host Fixture.env_distinct None None.

End CliFixture.

(** * Properties *)

Import MigrationManager.

(** ** The single-migration operations, case by case *)

Section Single.

Context {D : Type}.
Variable env : environment D.

Lemma apply_migration_load_error nm path w e :
  load env nm path = inl e ->
  apply_migration env nm path w = (inl e, logged w [EvLoad nm path]).
Proof.
  intros H. unfold apply_migration, load_migration, bind, log, raise, logged.
  cbn. rewrite H. reflexivity.
Qed.

Lemma apply_migration_value_error nm path w u :
  load env nm path = inr u ->
  PyStr.int (PyStr.split_head "_" nm) = None ->
  apply_migration env nm path w
  = (inl (ValueError (PyStr.split_head "_" nm)), logged w [EvLoad nm path]).
Proof.
  intros H Hi. unfold apply_migration, load_migration, int, bind, log, raise, logged.
  cbn. rewrite H. cbn. rewrite Hi. reflexivity.
Qed.

Lemma apply_migration_gate_closed nm path w u n :
  load env nm path = inr u ->
  PyStr.int (PyStr.split_head "_" nm) = Some n ->
  gate_open n (migrations_collection w) = false ->
  apply_migration env nm path w
  = (inl (PreviousNotApplied (n - 1)), logged w [EvLoad nm path]).
Proof.
  intros H Hi Hg. unfold gate_open in Hg.
  apply orb_false_iff in Hg. destruct Hg as [Hn Hf].
  apply negb_false_iff in Hn.
  unfold Collection.find_one in Hf.
  destruct (find _ _) eqn:E in Hf; [discriminate|].
  unfold apply_migration, load_migration, int, find_one, Collection.find_one,
    bind, log, raise, logged.
  cbn. rewrite H. cbn. rewrite Hi. cbn. rewrite Hn. cbn. rewrite E. reflexivity.
Qed.

Lemma apply_migration_already_applied nm path w u n r :
  load env nm path = inr u ->
  PyStr.int (PyStr.split_head "_" nm) = Some n ->
  gate_open n (migrations_collection w) = true ->
  Collection.find_one (Collection.by_name (BaseMigration.class_name u))
    (migrations_collection w) = Some r ->
  apply_migration env nm path w = (inr tt, logged w [EvLoad nm path]).
Proof.
  intros H Hi Hg Hf. unfold gate_open, Collection.find_one in *.
  unfold apply_migration, load_migration, int, find_one, Collection.find_one,
    bind, log, raise, ret, logged.
  cbn. rewrite H. cbn. rewrite Hi. cbn.
  destruct (n >? 1)%Z; cbn in *.
  - destruct (find (Collection.matches (Collection.by_order _)) _); [|discriminate].
    cbn. rewrite Hf. reflexivity.
  - rewrite Hf. reflexivity.
Qed.

Lemma apply_migration_runs nm path w u n :
  load env nm path = inr u ->
  PyStr.int (PyStr.split_head "_" nm) = Some n ->
  gate_open n (migrations_collection w) = true ->
  Collection.find_one (Collection.by_name (BaseMigration.class_name u))
    (migrations_collection w) = None ->
  apply_migration env nm path w
  = let evs := [EvLoad nm path; EvMigrate (BaseMigration.class_name u)] in
    match BaseMigration.migrate u (migrations_collection w, db w) with
    | ((c, d), Some e) => (inl e, World c d (trace w ++ evs))
    | ((c, d), None) =>
        if Collection.int64 n
        then (inr tt,
              World (Collection.insert_one
                       (Document (BaseMigration.class_name u) n true) c)
                    d (trace w ++ evs))
        else (inl OverflowError, World c d (trace w ++ evs))
    end.
Proof.
  intros H Hi Hg Hf. unfold gate_open, Collection.find_one in *.
  unfold apply_migration, load_migration, int, find_one, Collection.find_one,
    insert_one, call, bind, log, raise, ret.
  cbn. rewrite H. cbn. rewrite Hi. cbn.
  destruct (n >? 1)%Z; cbn in *.
  - destruct (find (Collection.matches (Collection.by_order _)) _); [|discriminate].
    cbn. rewrite Hf. cbn.
    destruct (BaseMigration.migrate u (migrations_collection w, db w))
      as [[c1 d1] [e1|]]; cbn; [|destruct (Collection.int64 n)];
      rewrite <- app_assoc; reflexivity.
  - rewrite Hf. cbn.
    destruct (BaseMigration.migrate u (migrations_collection w, db w))
      as [[c1 d1] [e1|]]; cbn; [|destruct (Collection.int64 n)];
      rewrite <- app_assoc; reflexivity.
Qed.

Lemma rollback_migration_load_error nm path w e :
  load env nm path = inl e ->
  rollback_migration env nm path w = (inl e, logged w [EvLoad nm path]).
Proof.
  intros H. unfold rollback_migration, load_migration, bind, log, raise, logged.
  cbn. rewrite H. reflexivity.
Qed.

Lemma rollback_migration_runs nm path w u :
  load env nm path = inr u ->
  rollback_migration env nm path w
  = let evs := [EvLoad nm path; EvRollback (BaseMigration.class_name u)] in
    match BaseMigration.rollback_migration u (migrations_collection w, db w) with
    | ((c, d), Some e) => (inl e, World c d (trace w ++ evs))
    | ((c, d), None) =>
        (inr tt,
         World (Collection.delete_one
                  (Collection.by_name (BaseMigration.class_name u)) c)
               d (trace w ++ evs))
    end.
Proof.
  intros H.
  unfold rollback_migration, load_migration, delete_one, call, bind, log, raise, ret.
  cbn. rewrite H. cbn.
  destruct (BaseMigration.rollback_migration u (migrations_collection w, db w))
    as [[c1 d1] [e1|]]; cbn; rewrite <- app_assoc; reflexivity.
Qed.

End Single.

(** ** The collection operations *)

Local Open Scope list_scope.

Lemma find_one_None q c :
  Collection.find_one q c = None <->
  (forall r, In r c -> Collection.matches q r = false).
Proof.
  unfold Collection.find_one. split.
  - intros H r Hr. exact (find_none _ _ H r Hr).
  - induction c as [|x c IH]; intros H; cbn; [reflexivity|].
    rewrite (H x (or_introl eq_refl)). apply IH.
    intros r Hr. apply H. now right.
Qed.

Lemma find_one_Some q c r :
  Collection.find_one q c = Some r -> In r c /\ Collection.matches q r = true.
Proof. unfold Collection.find_one. apply find_some. Qed.

Lemma find_one_by_name_None s c :
  Collection.find_one (Collection.by_name s) c = None <-> ~ In s (map name c).
Proof.
  rewrite find_one_None, in_map_iff. split.
  - intros H [r [E Hr]]. specialize (H r Hr). cbn in H.
    rewrite E, String.eqb_refl in H. discriminate.
  - intros H r Hr. cbn. apply String.eqb_neq. intros E. apply H. now exists r.
Qed.

Lemma find_one_by_order_None n c :
  Collection.find_one (Collection.by_order n) c = None <->
  (forall r, In r c -> order r <> n).
Proof.
  rewrite find_one_None. split; intros H r Hr; specialize (H r Hr); cbn in *.
  - now apply Z.eqb_neq.
  - now apply Z.eqb_neq.
Qed.

(** [delete_one] removes the first match and nothing else. *)
Lemma delete_one_spec q c :
  (Collection.find_one q c = None /\ Collection.delete_one q c = c)
  \/ (exists l1 r l2,
        c = l1 ++ r :: l2
        /\ Collection.find_one q c = Some r
        /\ Collection.matches q r = true
        /\ (forall x, In x l1 -> Collection.matches q x = false)
        /\ Collection.delete_one q c = l1 ++ l2).
Proof.
  induction c as [|x c IH].
  - left. split; reflexivity.
  - unfold Collection.find_one in *. cbn. destruct (Collection.matches q x) eqn:E.
    + right. exists [], x, c. cbn. repeat split; try assumption.
      intros ? [].
    + destruct IH as [[Hf Hd] | (l1 & r & l2 & Hc & Hf & Hm & Hl & Hd)].
      * left. split; [assumption | now rewrite Hd].
      * right. exists (x :: l1), r, l2. cbn. rewrite Hc at 1. repeat split; try assumption.
        -- intros y [<- | Hy]; [assumption | now apply Hl].
        -- now rewrite Hd.
Qed.

Lemma delete_one_incl q c r :
  In r (Collection.delete_one q c) -> In r c.
Proof.
  induction c as [|x c IH]; cbn; [tauto|].
  destruct (Collection.matches q x); cbn; intuition.
Qed.

Lemma delete_one_names_unique q c :
  names_unique c -> names_unique (Collection.delete_one q c).
Proof.
  unfold names_unique. induction c as [|x c IH]; cbn; intros H; [assumption|].
  inversion H as [|? ? Hx Hc]; subst.
  destruct (Collection.matches q x); [assumption|].
  cbn. constructor; [|now apply IH].
  intros Hin. apply Hx. apply in_map_iff in Hin. destruct Hin as [r [E Hr]].
  apply in_map_iff. exists r. split; [assumption|]. eapply delete_one_incl; eassumption.
Qed.

Lemma insert_one_names_unique r c :
  names_unique c ->
  Collection.find_one (Collection.by_name (name r)) c = None ->
  names_unique (Collection.insert_one r c).
Proof.
  unfold names_unique, Collection.insert_one. intros H Hf.
  apply find_one_by_name_None in Hf.
  rewrite map_app. cbn.
  apply NoDup_rev in H. rewrite <- (rev_involutive (map name c ++ [name r])).
  apply NoDup_rev. rewrite rev_app_distr. cbn. constructor; [|assumption].
  now rewrite <- in_rev.
Qed.

(** ** What a call leaves in the trace *)

Lemma migrates_app t1 t2 : migrates (t1 ++ t2) = migrates t1 ++ migrates t2.
Proof. apply flat_map_app. Qed.

Lemma rollbacks_app t1 t2 : rollbacks (t1 ++ t2) = rollbacks t1 ++ rollbacks t2.
Proof. apply flat_map_app. Qed.

Lemma loads_app t1 t2 : loads (t1 ++ t2) = loads t1 ++ loads t2.
Proof. apply flat_map_app. Qed.

(** ** Conditions on the collection, over its records *)

Lemma recorded_iff s c : recorded s c <-> In s (map name c).
Proof.
  unfold recorded. rewrite in_map_iff. split; intros [r [H1 H2]]; exists r; tauto.
Qed.

Lemma not_recorded_find s c :
  ~ recorded s c <-> Collection.find_one (Collection.by_name s) c = None.
Proof. rewrite recorded_iff. symmetry. apply find_one_by_name_None. Qed.

Lemma recorded_find s c :
  recorded s c <-> exists r, Collection.find_one (Collection.by_name s) c = Some r.
Proof.
  split.
  - intros H. destruct (Collection.find_one (Collection.by_name s) c) as [r|] eqn:E;
      [now exists r|]. apply not_recorded_find in E. contradiction.
  - intros [r Hr]. apply find_one_Some in Hr. destruct Hr as [Hin Hm].
    exists r. split; [exact Hin|]. cbn in Hm. now apply String.eqb_eq.
Qed.

Lemma gate_open_iff n c : gate_open n c = true <-> predecessor_recorded n c.
Proof.
  unfold gate_open, predecessor_recorded. split.
  - intros H. apply orb_true_iff in H. destruct H as [H | H].
    + left. apply negb_true_iff in H. rewrite Z.gtb_ltb in H.
      apply Z.ltb_ge in H. exact H.
    + right.
      destruct (Collection.find_one (Collection.by_order (n - 1)) c) as [r|] eqn:E;
        [|discriminate].
      apply find_one_Some in E. destruct E as [Hin Hm]. exists r.
      split; [exact Hin|]. cbn in Hm. now apply Z.eqb_eq.
  - intros [H | (r & Hin & Ho)].
    + replace (n >? 1)%Z with false; [reflexivity|].
      symmetry. rewrite Z.gtb_ltb. apply Z.ltb_ge. exact H.
    + destruct (Collection.find_one (Collection.by_order (n - 1)) c) as [r'|] eqn:E;
        [apply orb_true_r|].
      exfalso. exact (proj1 (find_one_by_order_None (n - 1) c) E r Hin Ho).
Qed.

Lemma gate_closed_iff n c :
  gate_open n c = false
  <-> (n > 1)%Z /\ (forall r, In r c -> order r <> (n - 1)%Z).
Proof.
  split.
  - intros H. split.
    + destruct (Z_gt_dec n 1) as [Hn | Hn]; [exact Hn|]. exfalso.
      assert (Ht : gate_open n c = true) by (apply gate_open_iff; left; lia).
      congruence.
    + intros r Hin Ho.
      assert (Ht : gate_open n c = true) by (apply gate_open_iff; right; now exists r).
      congruence.
  - intros [Hn Hr]. destruct (gate_open n c) eqn:E; [|reflexivity]. exfalso.
    apply gate_open_iff in E. destruct E as [E | (r & Hin & Ho)]; [lia|].
    exact (Hr r Hin Ho).
Qed.

(** [delete_one] by name, over the records: the first record of that name
    goes and no other. *)
Lemma delete_one_by_name s c :
  (~ recorded s c /\ Collection.delete_one (Collection.by_name s) c = c)
  \/ (exists l1 r l2,
        c = l1 ++ r :: l2
        /\ name r = s
        /\ (forall x, In x l1 -> name x <> s)
        /\ Collection.delete_one (Collection.by_name s) c = l1 ++ l2).
Proof.
  destruct (delete_one_spec (Collection.by_name s) c)
    as [[Hf Hd] | (l1 & r & l2 & Hc & Hf & Hm & Hl1 & Hd)].
  - left. split; [now apply not_recorded_find | exact Hd].
  - right. exists l1, r, l2. split; [exact Hc|]. split.
    + cbn in Hm. now apply String.eqb_eq.
    + split; [|exact Hd]. intros x Hx. specialize (Hl1 x Hx). cbn in Hl1.
      now apply String.eqb_neq.
Qed.

(** Every call of [apply_migration] either stops before the unit's [migrate]
    (nothing but the trace changes) or reaches it. *)
Lemma apply_migration_cases {D} (env : environment D) nm path w :
  (exists res, apply_migration env nm path w = (res, logged w [EvLoad nm path]))
  \/ (exists u n,
        load env nm path = inr u
        /\ PyStr.int (PyStr.split_head "_" nm) = Some n
        /\ gate_open n (migrations_collection w) = true
        /\ Collection.find_one (Collection.by_name (BaseMigration.class_name u))
             (migrations_collection w) = None).
Proof.
  destruct (load env nm path) as [e|u] eqn:Hl.
  { left. eexists. apply apply_migration_load_error. exact Hl. }
  destruct (PyStr.int (PyStr.split_head "_" nm)) as [n|] eqn:Hi.
  2:{ left. eexists. eapply apply_migration_value_error; eassumption. }
  destruct (gate_open n (migrations_collection w)) eqn:Hg.
  2:{ left. eexists. eapply apply_migration_gate_closed; eassumption. }
  destruct (Collection.find_one (Collection.by_name (BaseMigration.class_name u))
              (migrations_collection w)) as [r|] eqn:Hf.
  { left. eexists. eapply apply_migration_already_applied; eassumption. }
  right. exists u, n. repeat split; assumption.
Qed.

(** What the unit's [migrate] leaves is what the call works on: with a
    [migrate] that does not write the collection, a failed [apply_migration]
    has written nothing to it. *)
Lemma apply_migration_error_keeps_collection {D} (env : environment D) nm path w e :
  (forall u, load env nm path = inr u ->
             leaves_collection (BaseMigration.migrate u)) ->
  fst (apply_migration env nm path w) = inl e ->
  migrations_collection (snd (apply_migration env nm path w))
  = migrations_collection w.
Proof.
  intros Hq.
  destruct (apply_migration_cases env nm path w)
    as [[res H] | (u & n & Hl & Hi & Hg & Hf)].
  - rewrite H. reflexivity.
  - rewrite (apply_migration_runs env nm path w Hl Hi Hg Hf). cbv zeta.
    pose proof (Hq u Hl (migrations_collection w) (db w)) as Hc.
    destruct (BaseMigration.migrate u (migrations_collection w, db w))
      as [[c1 d1] [e1|]]; cbn in Hc; subst c1; cbn; [reflexivity|].
    destruct (Collection.int64 n); cbn; [discriminate | reflexivity].
Qed.

Lemma apply_migration_names_unique {D} (env : environment D) nm path w :
  (forall u, load env nm path = inr u ->
             leaves_collection (BaseMigration.migrate u)) ->
  names_unique (migrations_collection w) ->
  names_unique (migrations_collection (snd (apply_migration env nm path w))).
Proof.
  intros Hq Hu.
  destruct (apply_migration_cases env nm path w)
    as [[res H] | (u & n & Hl & Hi & Hg & Hf)].
  - rewrite H. exact Hu.
  - rewrite (apply_migration_runs env nm path w Hl Hi Hg Hf). cbv zeta.
    pose proof (Hq u Hl (migrations_collection w) (db w)) as Hc.
    destruct (BaseMigration.migrate u (migrations_collection w, db w))
      as [[c1 d1] [e1|]]; cbn in Hc; subst c1; cbn; [exact Hu|].
    destruct (Collection.int64 n); cbn; [|exact Hu].
    apply insert_one_names_unique; assumption.
Qed.

Lemma rollback_migration_names_unique {D} (env : environment D) nm path w :
  (forall u, load env nm path = inr u ->
             leaves_collection (BaseMigration.rollback_migration u)) ->
  names_unique (migrations_collection w) ->
  names_unique (migrations_collection (snd (rollback_migration env nm path w))).
Proof.
  intros Hq Hu. destruct (load env nm path) as [e|u] eqn:Hl.
  - rewrite (rollback_migration_load_error env nm path w Hl). exact Hu.
  - rewrite (rollback_migration_runs env nm path w Hl). cbv zeta.
    pose proof (Hq u eq_refl (migrations_collection w) (db w)) as Hc.
    destruct (BaseMigration.rollback_migration u (migrations_collection w, db w))
      as [[c1 d1] [e1|]]; cbn in Hc; subst c1; cbn;
      [exact Hu | now apply delete_one_names_unique].
Qed.

(** ** The claims on [apply_migration] and [rollback_migration] *)

(** C2.  A unit of order [n > 1] applied to a collection with no record of
    order [n - 1]: [apply_migration] raises the exception of line 97, the
    unit's [migrate] is not called (the trace gains the load and nothing
    else, the collections are untouched) and the [migrations] collection is
    as before. *)
Theorem C2_apply_migration_previous_not_applied
  {D} (env : environment D) nm path (w : world D) u n :
  load env nm path = inr u ->
  PyStr.int (PyStr.split_head "_" nm) = Some n ->
  (n > 1)%Z ->
  (forall r, In r (migrations_collection w) -> order r <> (n - 1)%Z) ->
  let (res, w') := apply_migration env nm path w in
  res = inl (PreviousNotApplied (n - 1))
  /\ migrations_collection w' = migrations_collection w
  /\ db w' = db w
  /\ trace w' = trace w ++ [EvLoad nm path]
  /\ migrates (trace w') = migrates (trace w).
Proof.
  intros Hl Hi Hn Hr.
  assert (Hg : gate_open n (migrations_collection w) = false).
  { unfold gate_open. apply find_one_by_order_None in Hr. rewrite Hr.
    replace (n >? 1)%Z with true; [reflexivity|].
    symmetry. apply Z.gtb_lt. lia. }
  rewrite (apply_migration_gate_closed env nm path w Hl Hi Hg).
  cbn. repeat split. rewrite migrates_app. cbn. now rewrite app_nil_r.
Qed.

Lemma C2_witness :
  let (res, w') :=
    apply_migration Fixture.env_distinct "0002_b" Fixture.path_b Fixture.w0 in
  res = inl (PreviousNotApplied (2 - 1))
  /\ migrations_collection w' = []
  /\ db w' = 0%nat
  /\ trace w' = [] ++ [EvLoad "0002_b" Fixture.path_b]
  /\ migrates (trace w') = migrates [].
Proof.
  apply (@C2_apply_migration_previous_not_applied nat Fixture.env_distinct
           "0002_b" Fixture.path_b Fixture.w0 (Fixture.counting "CreateB") 2%Z).
  - reflexivity.
  - reflexivity.
  - reflexivity.
  - intros r [].
Defined.

(** C3 as stated fails: with the record of [0002_b] present and that of
    [0001_a] rolled back, applying [0002_b] again raises instead of
    returning. *)
Lemma C3_counterexample :
  ~ (forall (env : environment nat) nm path (w : world nat) u r,
        load env nm path = inr u ->
        Collection.find_one (Collection.by_name (BaseMigration.class_name u))
          (migrations_collection w) = Some r ->
        fst (apply_migration env nm path w) = inr tt).
Proof.
  intros H.
  specialize (H Fixture.env_distinct "0002_b" Fixture.path_b Fixture.w_only_b
                (Fixture.counting "CreateB") (Document "CreateB" 2 true)
                eq_refl eq_refl).
  vm_compute in H. discriminate H.
Qed.

(** C3, amended.  When the collection has a record with the unit's name,
    [apply_migration] never calls the unit's [migrate] and leaves the
    collection and the rest of the database as they were.  For a module
    name of integer prefix [n] it returns normally when [n <= 1] or a
    record of order [n - 1] is there, and otherwise -- [n > 1] and no
    record of order [n - 1] -- it raises the exception of line 97 for
    [n - 1]: the gate is tested before the name. *)
Theorem C3_apply_migration_already_applied
  {D} (env : environment D) nm path (w : world D) u :
  load env nm path = inr u ->
  recorded (BaseMigration.class_name u) (migrations_collection w) ->
  let (res, w') := apply_migration env nm path w in
  migrations_collection w' = migrations_collection w
  /\ db w' = db w
  /\ trace w' = trace w ++ [EvLoad nm path]
  /\ migrates (trace w') = migrates (trace w)
  /\ (forall n,
        PyStr.int (PyStr.split_head "_" nm) = Some n ->
        (predecessor_recorded n (migrations_collection w) -> res = inr tt)
        /\ ((n > 1)%Z ->
            (forall r, In r (migrations_collection w) -> order r <> (n - 1)%Z) ->
            res = inl (PreviousNotApplied (n - 1)))).
Proof.
  intros Hl Hrec. apply recorded_find in Hrec. destruct Hrec as [r Hf].
  destruct (apply_migration_cases env nm path w)
    as [[res H] | (u' & n & Hl' & Hi & Hg & Hf')].
  - rewrite H. cbn. repeat split.
    + rewrite migrates_app. cbn. now rewrite app_nil_r.
    + intros Hg. apply gate_open_iff in Hg.
      rewrite (apply_migration_already_applied env nm path w Hl H0 Hg Hf) in H.
      now inversion H.
    + intros Hn Hno.
      assert (Hg : gate_open n (migrations_collection w) = false)
        by (apply gate_closed_iff; now split).
      rewrite (apply_migration_gate_closed env nm path w Hl H0 Hg) in H.
      now inversion H.
  - rewrite Hl in Hl'. inversion Hl'; subst u'. rewrite Hf in Hf'. discriminate.
Qed.

Lemma C3_witness :
  (let (res, w') :=
     apply_migration Fixture.env_distinct "0002_b" Fixture.path_b Fixture.w_ab in
   migrations_collection w' = migrations_collection Fixture.w_ab
   /\ db w' = db Fixture.w_ab
   /\ trace w' = trace Fixture.w_ab ++ [EvLoad "0002_b" Fixture.path_b]
   /\ migrates (trace w') = migrates (trace Fixture.w_ab)
   /\ (forall n,
         PyStr.int (PyStr.split_head "_" "0002_b") = Some n ->
         (predecessor_recorded n (migrations_collection Fixture.w_ab) -> res = inr tt)
         /\ ((n > 1)%Z ->
             (forall r, In r (migrations_collection Fixture.w_ab) ->
                        order r <> (n - 1)%Z) ->
             res = inl (PreviousNotApplied (n - 1)))))
  /\ (let (res, w') :=
        apply_migration Fixture.env_distinct "0002_b" Fixture.path_b Fixture.w_only_b in
      migrations_collection w' = migrations_collection Fixture.w_only_b
      /\ db w' = db Fixture.w_only_b
      /\ trace w' = trace Fixture.w_only_b ++ [EvLoad "0002_b" Fixture.path_b]
      /\ migrates (trace w') = migrates (trace Fixture.w_only_b)
      /\ (forall n,
            PyStr.int (PyStr.split_head "_" "0002_b") = Some n ->
            (predecessor_recorded n (migrations_collection Fixture.w_only_b) ->
             res = inr tt)
            /\ ((n > 1)%Z ->
                (forall r, In r (migrations_collection Fixture.w_only_b) ->
                           order r <> (n - 1)%Z) ->
                res = inl (PreviousNotApplied (n - 1))))).
Proof.
  split.
  - apply (@C3_apply_migration_already_applied nat Fixture.env_distinct
             "0002_b" Fixture.path_b Fixture.w_ab (Fixture.counting "CreateB")).
    + reflexivity.
    + exists (Document "CreateB" 2 true). split; [right; left|]; reflexivity.
  - apply (@C3_apply_migration_already_applied nat Fixture.env_distinct
             "0002_b" Fixture.path_b Fixture.w_only_b (Fixture.counting "CreateB")).
    + reflexivity.
    + exists (Document "CreateB" 2 true). split; [left|]; reflexivity.
Defined.

(** C4 as stated fails: a unit is handed [self.db], of which the
    [migrations] collection is a member; when its [migrate] empties that
    collection and then raises, the collection is not what it was before
    the call. *)
Lemma C4_counterexample :
  ~ (forall (env : environment nat) nm path (w : world nat) u e cd,
        load env nm path = inr u ->
        BaseMigration.migrate u (migrations_collection w, db w) = (cd, Some e) ->
        migrations_collection (snd (apply_migration env nm path w))
        = migrations_collection w).
Proof.
  intros H.
  specialize (H Fixture.env_vandal "0002_b" Fixture.path_b Fixture.w_a
                Fixture.vandal (OtherError "OperationFailure") ([], 1%nat)
                eq_refl eq_refl).
  vm_compute in H. discriminate H.
Qed.

(** C4, amended.  When the unit's [migrate] is reached and raises [e], the
    call raises that same [e] and the manager inserts nothing: the world is
    exactly what [migrate] left.  So whenever [migrate] raises, the
    collection after the call is the one before it or the one [migrate]
    left, and the one before it when [migrate] has not written it; and for
    a unit that never writes the collection, whatever makes
    [apply_migration] fail, the collection is what it was before the
    call. *)
Theorem C4_apply_migration_unit_error
  {D} (env : environment D) nm path (w : world D) u e c1 d1 :
  load env nm path = inr u ->
  BaseMigration.migrate u (migrations_collection w, db w) = ((c1, d1), Some e) ->
  (forall n,
      PyStr.int (PyStr.split_head "_" nm) = Some n ->
      predecessor_recorded n (migrations_collection w) ->
      ~ recorded (BaseMigration.class_name u) (migrations_collection w) ->
      apply_migration env nm path w
      = (inl e,
         World c1 d1
           (trace w ++ [EvLoad nm path; EvMigrate (BaseMigration.class_name u)])))
  /\ (migrations_collection (snd (apply_migration env nm path w))
      = migrations_collection w
      \/ migrations_collection (snd (apply_migration env nm path w)) = c1)
  /\ (c1 = migrations_collection w ->
      migrations_collection (snd (apply_migration env nm path w))
      = migrations_collection w)
  /\ (leaves_collection (BaseMigration.migrate u) ->
      forall e', fst (apply_migration env nm path w) = inl e' ->
        migrations_collection (snd (apply_migration env nm path w))
        = migrations_collection w).
Proof.
  intros Hl Hm.
  assert (Hor : migrations_collection (snd (apply_migration env nm path w))
                = migrations_collection w
                \/ migrations_collection (snd (apply_migration env nm path w)) = c1).
  { destruct (apply_migration_cases env nm path w)
      as [[res H] | (u' & n & Hl' & Hi & Hg & Hf)].
    - rewrite H. now left.
    - rewrite (apply_migration_runs env nm path w Hl' Hi Hg Hf). cbv zeta.
      rewrite Hl in Hl'. inversion Hl'; subst u'. rewrite Hm. now right. }
  split; [|split; [exact Hor|split]].
  - intros n Hi Hg Hf. apply gate_open_iff in Hg. apply not_recorded_find in Hf.
    rewrite (apply_migration_runs env nm path w Hl Hi Hg Hf). cbv zeta.
    rewrite Hm. reflexivity.
  - intros ->. destruct Hor as [H | H]; exact H.
  - intros Hq e'. apply apply_migration_error_keeps_collection.
    intros u' Hl'. rewrite Hl in Hl'. inversion Hl'; subst u'. exact Hq.
Qed.

Lemma C4_witness :
  apply_migration Fixture.env_failing "0002_b" Fixture.path_b Fixture.w_a
  = (inl Fixture.boom,
     World (migrations_collection Fixture.w_a) 2%nat
       (trace Fixture.w_a ++ [EvLoad "0002_b" Fixture.path_b; EvMigrate "CreateB"])).
Proof.
  apply (proj1 (@C4_apply_migration_unit_error nat Fixture.env_failing
           "0002_b" Fixture.path_b Fixture.w_a
           (Fixture.failing "CreateB" Fixture.boom) Fixture.boom
           (migrations_collection Fixture.w_a) 2%nat
           eq_refl eq_refl) 2%Z).
  - reflexivity.
  - right. exists (Document "CreateA" 1 true). split; [left|]; reflexivity.
  - intros (r & Hin & Hn). destruct Hin as [<- | []]. discriminate Hn.
Defined.

(** C5 as stated fails: when the unit's [rollback_migration] itself empties
    [db.migrations] and then raises, the record of the unit is gone although
    the rollback failed. *)
Lemma C5_counterexample :
  ~ (forall (env : environment nat) nm path (w : world nat) u e cd r,
        load env nm path = inr u ->
        BaseMigration.rollback_migration u (migrations_collection w, db w)
        = (cd, Some e) ->
        In r (migrations_collection w) ->
        name r = BaseMigration.class_name u ->
        In r (migrations_collection (snd (rollback_migration env nm path w)))).
Proof.
  intros H.
  specialize (H Fixture.env_vandal "0001_a" Fixture.path_a
                (World [Document "Vandal" 1 true] 0%nat [])
                Fixture.vandal (OtherError "OperationFailure") ([], 0%nat)
                (Document "Vandal" 1 true)
                eq_refl eq_refl (or_introl eq_refl) eq_refl).
  vm_compute in H. exact H.
Qed.

(** C5, amended.  When the unit's [rollback_migration] raises [e], the
    manager's [rollback_migration] raises that same [e] and does not reach
    [delete_one]: the world is exactly what the unit's call left.  When that
    call has not written the collection, the collection is the one before
    the call and every record of the unit's name is still in it. *)
Theorem C5_rollback_migration_unit_error
  {D} (env : environment D) nm path (w : world D) u e c1 d1 :
  load env nm path = inr u ->
  BaseMigration.rollback_migration u (migrations_collection w, db w)
  = ((c1, d1), Some e) ->
  let (res, w') := rollback_migration env nm path w in
  res = inl e
  /\ migrations_collection w' = c1
  /\ db w' = d1
  /\ trace w'
     = trace w ++ [EvLoad nm path; EvRollback (BaseMigration.class_name u)]
  /\ (c1 = migrations_collection w ->
      migrations_collection w' = migrations_collection w
      /\ forall r,
           In r (migrations_collection w) ->
           name r = BaseMigration.class_name u ->
           In r (migrations_collection w')).
Proof.
  intros Hl Hm.
  rewrite (rollback_migration_runs env nm path w Hl). cbv zeta. rewrite Hm.
  cbn. repeat split; try assumption. intros r Hr _. now subst c1.
Qed.

Lemma C5_witness :
  let (res, w') :=
    rollback_migration Fixture.env_failing "0002_b" Fixture.path_b Fixture.w_only_b in
  res = inl Fixture.boom
  /\ migrations_collection w' = migrations_collection Fixture.w_only_b
  /\ db w' = 0%nat
  /\ trace w'
     = trace Fixture.w_only_b ++ [EvLoad "0002_b" Fixture.path_b; EvRollback "CreateB"]
  /\ (migrations_collection Fixture.w_only_b = migrations_collection Fixture.w_only_b ->
      migrations_collection w' = migrations_collection Fixture.w_only_b
      /\ forall r,
           In r (migrations_collection Fixture.w_only_b) ->
           name r = "CreateB" ->
           In r (migrations_collection w')).
Proof.
  apply (@C5_rollback_migration_unit_error nat Fixture.env_failing
           "0002_b" Fixture.path_b Fixture.w_only_b
           (Fixture.failing "CreateB" Fixture.boom) Fixture.boom
           (migrations_collection Fixture.w_only_b) 0%nat).
  - reflexivity.
  - reflexivity.
Defined.

(** C6 as stated fails: with no record of the unit's name in the collection,
    a [rollback_migration] of the unit that writes [db.migrations] and
    returns leaves the collection changed. *)
Lemma C6_counterexample :
  ~ (forall (env : environment nat) nm path (w : world nat) u,
        load env nm path = inr u ->
        snd (BaseMigration.rollback_migration u (migrations_collection w, db w))
        = None ->
        ~ recorded (BaseMigration.class_name u) (migrations_collection w) ->
        migrations_collection (snd (rollback_migration env nm path w))
        = migrations_collection w).
Proof.
  intros H.
  assert (Hno : ~ recorded "Sneaky" (migrations_collection Fixture.w0))
    by (intros (r & [] & _)).
  specialize (H Fixture.env_sneaky "0001_a" Fixture.path_a Fixture.w0
                Fixture.sneaky eq_refl eq_refl Hno).
  vm_compute in H. discriminate H.
Qed.

(** C6, amended.  Whatever the collection holds, [rollback_migration] calls
    the unit's [rollback_migration] once, with no test before it.  When that
    call returns, the manager returns normally after deleting, from the
    collection as the call left it, the first record whose name is the
    unit's and no other: the collection loses exactly that record, and
    with no record of that name it stays as the call left it -- as it was
    before the rollback when the unit has not written the collection. *)
Theorem C6_rollback_migration
  {D} (env : environment D) nm path (w : world D) u c1 d1 r1 :
  load env nm path = inr u ->
  BaseMigration.rollback_migration u (migrations_collection w, db w)
  = ((c1, d1), r1) ->
  let s := BaseMigration.class_name u in
  let (res, w') := rollback_migration env nm path w in
  trace w' = trace w ++ [EvLoad nm path; EvRollback s]
  /\ rollbacks (trace w') = rollbacks (trace w) ++ [s]
  /\ db w' = d1
  /\ (r1 = None ->
      res = inr tt
      /\ (~ recorded s c1 -> migrations_collection w' = c1)
      /\ (recorded s c1 ->
          exists l1 r l2,
            c1 = l1 ++ r :: l2
            /\ name r = s
            /\ (forall x, In x l1 -> name x <> s)
            /\ migrations_collection w' = l1 ++ l2)
      /\ (List.length c1 <= S (List.length (migrations_collection w')))%nat
      /\ (c1 = migrations_collection w -> ~ recorded s (migrations_collection w) ->
          migrations_collection w' = migrations_collection w)).
Proof.
  intros Hl Hm s.
  rewrite (rollback_migration_runs env nm path w Hl). cbv zeta. rewrite Hm.
  destruct r1 as [e1|]; cbn.
  - split; [reflexivity|]. split; [rewrite rollbacks_app; reflexivity|].
    split; [reflexivity|]. intros H. discriminate H.
  - split; [reflexivity|]. split; [rewrite rollbacks_app; reflexivity|].
    split; [reflexivity|]. intros _. split; [reflexivity|]. fold s.
    destruct (delete_one_by_name s c1)
      as [[Hno Hd] | (l1 & r & l2 & Hc & Hn & Hl1 & Hd)].
    + split; [intros _; exact Hd|]. split; [intros Hr; contradiction|].
      split; [rewrite Hd; lia|]. intros Hc _. rewrite Hd. exact Hc.
    + assert (Hrec : recorded s c1).
      { exists r. split; [|exact Hn]. rewrite Hc. apply in_or_app. right. now left. }
      split; [intros Hno; contradiction|]. split.
      * intros _. exists l1, r, l2. repeat split; assumption.
      * split; [rewrite Hd, Hc, !length_app; cbn; lia|].
        intros -> Hno. contradiction.
Qed.

Lemma C6_witness :
  let s := "CreateB" in
  let (res, w') :=
    rollback_migration Fixture.env_distinct "0002_b" Fixture.path_b Fixture.w_ab in
  trace w' = trace Fixture.w_ab ++ [EvLoad "0002_b" Fixture.path_b; EvRollback s]
  /\ rollbacks (trace w') = rollbacks (trace Fixture.w_ab) ++ [s]
  /\ db w' = 1%nat
  /\ (@None exn = None ->
      res = inr tt
      /\ (~ recorded s (migrations_collection Fixture.w_ab) ->
          migrations_collection w' = migrations_collection Fixture.w_ab)
      /\ (recorded s (migrations_collection Fixture.w_ab) ->
          exists l1 r l2,
            migrations_collection Fixture.w_ab = l1 ++ r :: l2
            /\ name r = s
            /\ (forall x, In x l1 -> name x <> s)
            /\ migrations_collection w' = l1 ++ l2)
      /\ (List.length (migrations_collection Fixture.w_ab)
          <= S (List.length (migrations_collection w')))%nat
      /\ (migrations_collection Fixture.w_ab = migrations_collection Fixture.w_ab ->
          ~ recorded s (migrations_collection Fixture.w_ab) ->
          migrations_collection w' = migrations_collection Fixture.w_ab)).
Proof.
  apply (@C6_rollback_migration nat Fixture.env_distinct
           "0002_b" Fixture.path_b Fixture.w_ab (Fixture.counting "CreateB")
           (migrations_collection Fixture.w_ab) 1%nat None).
  - reflexivity.
  - reflexivity.
Defined.

(** C9 as stated fails: one [apply_migration] from the empty collection, of
    a unit whose [migrate] inserts a record of its own name into
    [db.migrations], ends with two records of that name. *)
Lemma C9_counterexample :
  ~ (forall w : world nat, reachable w -> names_unique (migrations_collection w)).
Proof.
  intros H.
  specialize (H _ (reachable_apply Fixture.env_sneaky "0001_a" Fixture.path_a
                     (reachable_empty 0%nat []))).
  vm_compute in H. inversion H as [|x l Hx Hl]. apply Hx. now left.
Qed.

(** C9, amended.  In every world reachable from an empty collection by
    calls of [apply_migration] and [rollback_migration] whose units do not
    themselves write the [migrations] collection, no two records have the
    same [name]; each of the two methods keeps it so for such a unit. *)
Theorem C9_names_unique {D} :
  (forall w : world D, reachable_quiet w -> names_unique (migrations_collection w))
  /\ (forall (env : environment D) nm path (w : world D),
        (forall u, load env nm path = inr u ->
                   leaves_collection (BaseMigration.migrate u)) ->
        names_unique (migrations_collection w) ->
        names_unique
          (migrations_collection (snd (apply_migration env nm path w))))
  /\ (forall (env : environment D) nm path (w : world D),
        (forall u, load env nm path = inr u ->
                   leaves_collection (BaseMigration.rollback_migration u)) ->
        names_unique (migrations_collection w) ->
        names_unique
          (migrations_collection (snd (rollback_migration env nm path w)))).
Proof.
  split; [|split].
  - intros w H.
    induction H as [d t | env nm path w Hq _ IH | env nm path w Hq _ IH].
    + constructor.
    + apply apply_migration_names_unique; [|exact IH].
      intros u Hu. exact (proj1 (Hq nm path u Hu)).
    + apply rollback_migration_names_unique; [|exact IH].
      intros u Hu. exact (proj2 (Hq nm path u Hu)).
  - intros. now apply apply_migration_names_unique.
  - intros. now apply rollback_migration_names_unique.
Qed.

Lemma counting_leaves_collection s :
  leaves_collection (BaseMigration.migrate (Fixture.counting s))
  /\ leaves_collection (BaseMigration.rollback_migration (Fixture.counting s)).
Proof. split; intros c d; reflexivity. Qed.

Lemma env_distinct_quiet : quiet Fixture.env_distinct.
Proof.
  intros nm path u H. cbn in H. unfold Fixture.loader in H.
  repeat (destruct (String.eqb path _);
          [inversion H; apply counting_leaves_collection|]).
  discriminate H.
Qed.

Lemma C9_witness : names_unique (migrations_collection Fixture.w_only_b).
Proof.
  apply (proj1 (@C9_names_unique nat)).
  unfold Fixture.w_only_b.
  apply reachable_quiet_rollback; [exact env_distinct_quiet|].
  apply reachable_quiet_apply; [exact env_distinct_quiet|].
  apply reachable_quiet_apply; [exact env_distinct_quiet|].
  exact (reachable_quiet_empty 0%nat []).
Defined.

(** ** File names and their keys *)

Lemma chars_app (a b : string) : chars (a ++ b)%string = chars a ++ chars b.
Proof.
  unfold chars. induction a as [|c a IH]; cbn; [reflexivity | now rewrite IH].
Qed.

Lemma endswith_app s suffix :
  PyStr.endswith s suffix = true -> exists pre, s = (pre ++ suffix)%string.
Proof.
  induction s as [|c s IH]; cbn [PyStr.endswith].
  - destruct (String.eqb EmptyString suffix) eqn:E; [|discriminate].
    apply String.eqb_eq in E. subst. now exists EmptyString.
  - destruct (String.eqb (String c s) suffix) eqn:E.
    + apply String.eqb_eq in E. subst. now exists EmptyString.
    + intros H. destruct (IH H) as [pre ->]. now exists (String c pre).
Qed.

Lemma substring_prefix (a b : string) :
  substring 0 (String.length a) (a ++ b)%string = a.
Proof.
  induction a as [|c a IH]; cbn.
  - destruct b; reflexivity.
  - now rewrite IH.
Qed.

Lemma length_append (a b : string) :
  String.length (a ++ b)%string = (String.length a + String.length b)%nat.
Proof. induction a as [|c a IH]; cbn; [reflexivity | now rewrite IH]. Qed.

Lemma drop_last3_py (pre : string) :
  PyStr.drop_last3 (pre ++ ".py")%string = pre.
Proof.
  unfold PyStr.drop_last3. rewrite length_append. cbn [String.length].
  replace (String.length pre + 3 - 3)%nat with (String.length pre) by lia.
  apply substring_prefix.
Qed.

Lemma split_head_app_in sep (a b : string) :
  In sep (chars a) ->
  PyStr.split_head sep (a ++ b)%string = PyStr.split_head sep a.
Proof.
  induction a as [|c a IH]; cbn; [tauto|].
  destruct (Ascii.eqb c sep) eqn:E; [reflexivity|].
  intros [H | H].
  - subst. rewrite Ascii.eqb_refl in E. discriminate.
  - now rewrite (IH H).
Qed.

Lemma split_head_app_notin sep (a b : string) :
  ~ In sep (chars a) ->
  PyStr.split_head sep (a ++ b)%string = (a ++ PyStr.split_head sep b)%string.
Proof.
  induction a as [|c a IH]; cbn; [reflexivity|].
  intros H. destruct (Ascii.eqb c sep) eqn:E.
  - apply Ascii.eqb_eq in E. subst. exfalso. apply H. now left.
  - rewrite IH; [reflexivity|]. intros Hin. apply H. now right.
Qed.

Lemma skip_spaces_chars s c :
  In c (chars s) -> PyStr.is_space c = true \/ In c (chars (PyStr.skip_spaces s)).
Proof.
  induction s as [|a s IH]; cbn; [tauto|].
  destruct (PyStr.is_space a) eqn:E.
  - intros [<- | H]; [now left | now apply IH].
  - intros H. right. exact H.
Qed.

Lemma scan_digits_chars s : forall b acc v rest c,
  PyStr.scan_digits b acc s = Some (v, rest) ->
  In c (chars s) -> int_char c = true \/ In c (chars rest).
Proof.
  induction s as [|a s IH]; intros b acc v rest c; cbn; [tauto|].
  destruct (PyStr.digit_value a) as [d|] eqn:Ed.
  - intros H [<- | Hin].
    + left. unfold int_char. rewrite Ed. now rewrite orb_true_r.
    + eapply IH; eassumption.
  - destruct (Ascii.eqb a "_") eqn:Eu.
    + destruct b; [discriminate|]. intros H [<- | Hin].
      * left. unfold int_char. rewrite Eu. now rewrite orb_true_r.
      * eapply IH; eassumption.
    + destruct b; [discriminate|]. intros H Hin. inversion H; subst.
      right. exact Hin.
Qed.

Lemma int_chars s k c :
  PyStr.int s = Some k -> In c (chars s) -> int_char c = true.
Proof.
  unfold PyStr.int. intros H Hin.
  destruct (skip_spaces_chars s c Hin) as [Hs | Hin1].
  { unfold int_char. now rewrite Hs. }
  set (s1 := PyStr.skip_spaces s) in *.
  assert (Hbody : forall sign s2,
             match s2 with
             | EmptyString => None
             | String c0 _ =>
                 match PyStr.digit_value c0 with
                 | None => None
                 | Some _ =>
                     match PyStr.scan_digits false 0 s2 with
                     | None => None
                     | Some (v, rest) =>
                         match PyStr.skip_spaces rest with
                         | EmptyString => Some (sign * v)%Z
                         | String _ _ => None
                         end
                     end
                 end
             end = Some k ->
             In c (chars s2) -> int_char c = true).
  { intros sign s2 H2 Hin2. destruct s2 as [|c0 s2']; [discriminate|].
    destruct (PyStr.digit_value c0); [|discriminate].
    destruct (PyStr.scan_digits false 0 (String c0 s2')) as [[v rest]|] eqn:Es;
      [|discriminate].
    destruct (scan_digits_chars _ _ _ c Es Hin2) as [Hc | Hr]; [exact Hc|].
    destruct (skip_spaces_chars rest c Hr) as [Hs | Hs].
    - unfold int_char. now rewrite Hs.
    - destruct (PyStr.skip_spaces rest); [destruct Hs | discriminate]. }
  destruct s1 as [|a r]; [destruct Hin1|].
  destruct (ascii_dec a "+") as [-> | Np].
  { destruct Hin1 as [<- | Hin1]; [reflexivity|]. exact (Hbody 1%Z r H Hin1). }
  destruct (ascii_dec a "-") as [-> | Nm].
  { destruct Hin1 as [<- | Hin1]; [reflexivity|]. exact (Hbody (-1)%Z r H Hin1). }
  apply (Hbody 1%Z (String a r)); [|exact Hin1].
  destruct a as [[] [] [] [] [] [] [] []]; try exact H; congruence.
Qed.

(** A string with a character that is no space, digit, sign or underscore
    is no integer. *)
Lemma int_rejects s c :
  In c (chars s) -> int_char c = false -> PyStr.int s = None.
Proof.
  intros Hin Hc. destruct (PyStr.int s) as [k|] eqn:E; [|reflexivity].
  rewrite (int_chars _ _ E Hin) in Hc. discriminate.
Qed.

(** A non-empty string of digits is the integer it writes. *)
Lemma scan_digits_all_digits s : forall acc,
  all_digits s = true ->
  PyStr.scan_digits false acc s = Some (decimal acc s, EmptyString).
Proof.
  induction s as [|c s IH]; intros acc H; cbn in *; [reflexivity|].
  destruct (PyStr.digit_value c); [now apply IH | discriminate].
Qed.

Lemma int_digits s :
  s <> EmptyString -> all_digits s = true -> PyStr.int s = Some (decimal 0 s).
Proof.
  destruct s as [|c s]; [congruence|]. intros _ H.
  pose proof (scan_digits_all_digits (String c s) 0 H) as Hs.
  cbn [all_digits] in H.
  destruct (PyStr.digit_value c) as [d|] eqn:Ed; [|discriminate].
  destruct c as [[] [] [] [] [] [] [] []]; try discriminate Ed;
    match goal with
    | |- PyStr.int (String ?c s) = _ =>
        change (PyStr.int (String c s))
          with (match PyStr.scan_digits false 0 (String c s) with
                | None => None
                | Some (v, rest) =>
                    match PyStr.skip_spaces rest with
                    | EmptyString => Some (1 * v)%Z
                    | String _ _ => None
                    end
                end)
    end;
    rewrite Hs; cbn [PyStr.skip_spaces]; now rewrite Z.mul_1_l.
Qed.

(** The module name [filename[:-3]] of a candidate has the key of the file
    name: a name that sorts has an underscore before its [.py]. *)
Lemma module_name_key f k :
  PyStr.endswith f ".py" = true ->
  key_of f = Some k ->
  PyStr.int (PyStr.split_head "_" (PyStr.drop_last3 f)) = Some k.
Proof.
  intros He Hk. destruct (endswith_app _ _ He) as [pre ->].
  rewrite drop_last3_py. unfold key_of in Hk.
  destruct (in_dec ascii_dec "_"%char (chars pre)) as [Hin | Hout].
  - now rewrite split_head_app_in in Hk.
  - rewrite split_head_app_notin in Hk by exact Hout. exfalso.
    assert (Hdot : In "."%char (chars (pre ++ PyStr.split_head "_" ".py")%string)).
    { rewrite chars_app. apply in_or_app. right. cbn. now left. }
    pose proof (int_chars _ _ Hk Hdot) as Hc. vm_compute in Hc. discriminate.
Qed.

(** ** The string model on concrete names *)

Example int_0001 : PyStr.int "0001" = Some 1%Z.
Proof. reflexivity. Qed.
Example int_spaces : PyStr.int (String (ascii_of_nat 9) "-12 ") = Some (-12)%Z.
Proof. reflexivity. Qed.
Example int_fs : PyStr.int (String (ascii_of_nat 28) "1") = None.
Proof. reflexivity. Qed.
Example int_nbsp : PyStr.int (String (ascii_of_nat 133) ("1" ++ String (ascii_of_nat 160) EmptyString)) = Some 1%Z.
Proof. reflexivity. Qed.
Example int_bad : PyStr.int "+ 1" = None /\ PyStr.int EmptyString = None /\ PyStr.int "1.py" = None
  /\ PyStr.int "1_0" = Some 10%Z /\ PyStr.int "1__0" = None /\ PyStr.int "_1" = None
  /\ PyStr.int "1_" = None /\ PyStr.int "--1" = None /\ PyStr.int "1 2" = None.
Proof. repeat split; reflexivity. Qed.
Example join_ex :
  PyStr.join "/cwd" [EmptyString; "migrations"] = "/cwd/migrations"
  /\ PyStr.join "/cwd" ["a/b"; "migrations"] = "/cwd/a/b/migrations"
  /\ PyStr.join "/cwd" ["/abs"; "m"] = "/abs/m"
  /\ PyStr.join "/" ["x"] = "/x" /\ PyStr.join "/cwd" ["a"; EmptyString] = "/cwd/a/".
Proof. repeat split; reflexivity. Qed.
Example names_ex :
  PyStr.endswith "0001_a.py" ".py" = true /\ PyStr.endswith ".py" ".py" = true
  /\ PyStr.endswith "py" ".py" = false /\ PyStr.startswith "__init__.py" "__" = true
  /\ PyStr.startswith "_a.py" "__" = false /\ PyStr.drop_last3 "0001_a.py" = "0001_a"
  /\ PyStr.split_head "_" "0001_a_b" = "0001" /\ PyStr.split_head "_" "abc" = "abc"
  /\ PyStr.drop_last3 "ab" = EmptyString.
Proof. repeat split; reflexivity. Qed.

(** ** [sorted]: a stable sort by key *)

Section SortFacts.

Context {A : Type}.

Lemma insert_perm k (x : A) l :
  Permutation (PySorted.insert k x l) ((k, x) :: l).
Proof.
  induction l as [|[k' y] l IH]; cbn; [apply Permutation_refl|].
  destruct (k' <? k)%Z; [|apply Permutation_refl].
  eapply Permutation_trans; [apply perm_skip, IH | apply perm_swap].
Qed.

Lemma sort_perm (l : list (Z * A)) : Permutation (PySorted.sort l) l.
Proof.
  induction l as [|[k x] l IH]; cbn; [constructor|].
  eapply Permutation_trans; [apply insert_perm | now apply perm_skip].
Qed.

Lemma insert_sorted k (x : A) l :
  StronglySorted le_key l -> StronglySorted le_key (PySorted.insert k x l).
Proof.
  induction 1 as [|[k' y] l Hs IH Hall]; cbn.
  - constructor; constructor.
  - destruct (k' <? k)%Z eqn:E.
    + constructor; [exact IH|].
      apply (Permutation_Forall (Permutation_sym (insert_perm k x l))).
      constructor; [|exact Hall].
      apply Z.ltb_lt in E. unfold le_key. cbn. lia.
    + apply Z.ltb_ge in E. constructor; [now constructor|].
      constructor; [exact E|].
      eapply Forall_impl; [|exact Hall].
      intros p Hp. unfold le_key in *. cbn in *. lia.
Qed.

Lemma sort_sorted (l : list (Z * A)) : StronglySorted le_key (PySorted.sort l).
Proof.
  induction l as [|[k x] l IH]; cbn; [constructor | now apply insert_sorted].
Qed.

(** Stability: elements of one key keep their order. *)
Lemma insert_stable k (x : A) l j :
  filter (fun p => (fst p =? j)%Z) (PySorted.insert k x l)
  = filter (fun p => (fst p =? j)%Z) ((k, x) :: l).
Proof.
  induction l as [|[k' y] l IH]; [reflexivity|].
  cbn [PySorted.insert]. destruct (k' <? k)%Z eqn:E; [|reflexivity].
  apply Z.ltb_lt in E. cbn [filter fst] in *. rewrite IH.
  destruct (k' =? j)%Z eqn:E1; destruct (k =? j)%Z eqn:E2; try reflexivity.
  apply Z.eqb_eq in E1, E2. lia.
Qed.

Lemma sort_stable (l : list (Z * A)) j :
  filter (fun p => (fst p =? j)%Z) (PySorted.sort l)
  = filter (fun p => (fst p =? j)%Z) l.
Proof.
  induction l as [|[k x] l IH]; [reflexivity|].
  cbn [PySorted.sort fold_right fst snd]. rewrite insert_stable.
  cbn [filter fst]. fold (PySorted.sort l). now rewrite IH.
Qed.

Variable key : A -> Z.

Lemma sort_by_keyed l :
  Forall (fun p => fst p = key (snd p))
    (PySorted.sort (map (fun x => (key x, x)) l)).
Proof.
  apply (Permutation_Forall (Permutation_sym (sort_perm _))).
  apply Forall_forall. intros p Hp. apply in_map_iff in Hp.
  destruct Hp as [x [<- _]]. reflexivity.
Qed.

Lemma sort_by_perm l : Permutation (sort_by key l) l.
Proof.
  unfold sort_by.
  eapply Permutation_trans; [apply Permutation_map, sort_perm|].
  rewrite map_map. cbn. rewrite map_id. apply Permutation_refl.
Qed.

Lemma sort_by_sorted l :
  StronglySorted (fun a b => (key a <= key b)%Z) (sort_by key l).
Proof.
  unfold sort_by. pose proof (sort_by_keyed l) as Hk.
  pose proof (sort_sorted (map (fun x => (key x, x)) l)) as Hs.
  induction Hs as [|p kl Hs IH Hall]; cbn; [constructor|].
  inversion Hk as [|? ? Hp Hk']; subst.
  constructor; [now apply IH|].
  apply Forall_forall. intros y Hy. apply in_map_iff in Hy.
  destruct Hy as [q [<- Hq]].
  rewrite Forall_forall in Hall, Hk'.
  specialize (Hall q Hq). specialize (Hk' q Hq).
  unfold le_key in Hall. lia.
Qed.

Lemma sort_by_stable l j :
  filter (fun x => (key x =? j)%Z) (sort_by key l)
  = filter (fun x => (key x =? j)%Z) l.
Proof.
  unfold sort_by.
  assert (H : forall kl, Forall (fun p => fst p = key (snd p)) kl ->
              filter (fun x => (key x =? j)%Z) (map snd kl)
              = map snd (filter (fun p => (fst p =? j)%Z) kl)).
  { induction 1 as [|p kl Hp _ IH]; [reflexivity|].
    cbn. rewrite <- Hp. destruct (fst p =? j)%Z; cbn; now rewrite IH. }
  rewrite (H _ (sort_by_keyed l)), sort_stable, <- H.
  - rewrite map_map. cbn. now rewrite map_id.
  - apply Forall_forall. intros p Hp. apply in_map_iff in Hp.
    destruct Hp as [x [<- _]]. reflexivity.
Qed.

(** A sorted list is determined by its elements: two sorted lists of keys
    with the same elements are equal. *)
Lemma sorted_perm_eq (l1 l2 : list Z) :
  StronglySorted Z.le l1 -> StronglySorted Z.le l2 ->
  Permutation l1 l2 -> l1 = l2.
Proof.
  intros H1. revert l2. induction H1 as [|a l1 Hs1 IH Ha]; intros l2 H2 Hp.
  - apply Permutation_nil in Hp. now subst.
  - destruct H2 as [|b l2 Hs2 Hb].
    + apply Permutation_sym, Permutation_nil in Hp. discriminate.
    + assert (a = b).
      { assert (Hin1 : In a (b :: l2))
          by (eapply Permutation_in; [exact Hp | now left]).
        assert (Hin2 : In b (a :: l1))
          by (eapply Permutation_in; [exact (Permutation_sym Hp) | now left]).
        rewrite Forall_forall in Ha, Hb.
        destruct Hin1 as [E | Hin1]; [now subst|].
        destruct Hin2 as [E | Hin2]; [now subst|].
        specialize (Ha b Hin2). specialize (Hb a Hin1). lia. }
      subst b. f_equal. apply IH; [exact Hs2|].
      eapply Permutation_cons_inv; exact Hp.
Qed.

End SortFacts.

(** ** Discovery (lines 55-65) *)

Section Discovery.

Context {D : Type}.
Variable env : environment D.

Lemma sort_key_eq (f : string) (w : world D) :
  sort_key f w
  = (match key_of f with
     | Some k => inr k
     | None => inl (ValueError (PyStr.split_head "_" f))
     end, w).
Proof.
  unfold sort_key, int, key_of.
  destruct (PyStr.int (PyStr.split_head "_" f)); reflexivity.
Qed.

Lemma decorate_sort_key (l : list string) (w : world D) :
  PySorted.decorate (sort_key (D := D)) l w
  = (match find (fun f => negb (has_key f)) l with
     | Some f => inl (ValueError (PyStr.split_head "_" f))
     | None => inr (map (fun f => (key_default f, f)) l)
     end, w).
Proof.
  induction l as [|f l IH]; [reflexivity|].
  cbn [PySorted.decorate find map]. unfold bind. rewrite sort_key_eq.
  unfold has_key at 1, key_default at 1.
  destruct (key_of f) as [k|]; cbn [negb]; [|reflexivity].
  rewrite IH. destruct (find _ l); reflexivity.
Qed.

Lemma migration_files_eq path (w : world D) :
  migration_files env path w
  = match stat env path with
    | Absent => (inl (FileNotFoundError path), w)
    | NotDirectory => (inl (NotADirectoryError path), logged w [EvListdir path])
    | Directory entries =>
        (match find (fun f => negb (has_key f)) (filter is_candidate entries) with
         | Some f => inl (ValueError (PyStr.split_head "_" f))
         | None => inr (sort_by key_default (filter is_candidate entries))
         end, logged w [EvListdir path])
    end.
Proof.
  unfold migration_files, exists_, listdir, PySorted.sorted.
  destruct (stat env path) as [| |entries]; cbn; try reflexivity.
  unfold bind, log. cbn. rewrite decorate_sort_key.
  destruct (find _ _); reflexivity.
Qed.

End Discovery.

(** C7 as stated fails: a directory holding [notes.py] makes discovery raise
    where the claim has it return the matching files. *)
Lemma C7_counterexample :
  ~ (forall (env : environment nat) path (w : world nat) entries,
        stat env path = Directory entries ->
        exists files, fst (migration_files env path w) = inr files).
Proof.
  intros H.
  destruct (H Fixture.env_notes Fixture.dir Fixture.w0
              ["0001_a.py"; "notes.py"] eq_refl) as [files Hf].
  vm_compute in Hf. discriminate Hf.
Qed.

(** C7, amended.  For a path that does not exist, discovery raises
    [FileNotFoundError] with the world untouched: no directory was listed
    and no file loaded.  For a directory all of whose candidates (names
    ending in [.py] and not starting with [__]) have an integer before
    their first underscore, discovery lists the directory once and returns
    exactly the candidates, in ascending order of that integer, candidates
    of equal integer in the order of the listing. *)
Theorem C7_migration_files {D} (env : environment D) path (w : world D) :
  (stat env path = Absent ->
   migration_files env path w = (inl (FileNotFoundError path), w)
   /\ forall module_name migrations_dir,
        migrations_path_of env module_name migrations_dir = path ->
        apply_all_migrations env module_name migrations_dir w
        = (inl (FileNotFoundError path), w))
  /\ (forall entries,
        stat env path = Directory entries ->
        (forall f, In f entries -> is_candidate f = true -> key_of f <> None) ->
        exists files,
          migration_files env path w = (inr files, logged w [EvListdir path])
          /\ (forall f, In f files <-> In f entries /\ is_candidate f = true)
          /\ Permutation files (filter is_candidate entries)
          /\ StronglySorted (fun a b => (key_default a <= key_default b)%Z) files
          /\ (forall k, filter (fun f => (key_default f =? k)%Z) files
                        = filter (fun f => (key_default f =? k)%Z)
                            (filter is_candidate entries))).
Proof.
  split.
  - intros Ha. split.
    + rewrite migration_files_eq, Ha. reflexivity.
    + intros module_name migrations_dir Hp.
      unfold apply_all_migrations. rewrite Hp. unfold bind.
      rewrite migration_files_eq, Ha. reflexivity.
  - intros entries Hd Hk.
    exists (sort_by key_default (filter is_candidate entries)).
    split; [|split; [|split; [|split]]].
    + rewrite migration_files_eq, Hd.
      destruct (find _ _) as [f|] eqn:E; [|reflexivity].
      apply find_some in E. destruct E as [Hin Hno].
      apply filter_In in Hin. destruct Hin as [Hin Hc].
      specialize (Hk f Hin Hc). unfold has_key in Hno.
      destruct (key_of f); [discriminate | congruence].
    + intros f. rewrite <- filter_In. split; intros H.
      * eapply Permutation_in; [apply sort_by_perm | exact H].
      * eapply Permutation_in; [apply Permutation_sym, sort_by_perm | exact H].
    + apply sort_by_perm.
    + apply sort_by_sorted.
    + intros k. apply sort_by_stable.
Qed.

Lemma C7_witness :
  exists files,
    migration_files Fixture.env_distinct Fixture.dir Fixture.w0
    = (inr files, logged Fixture.w0 [EvListdir Fixture.dir])
    /\ (forall f, In f files <-> In f Fixture.listing /\ is_candidate f = true)
    /\ Permutation files (filter is_candidate Fixture.listing)
    /\ StronglySorted (fun a b => (key_default a <= key_default b)%Z) files
    /\ (forall k, filter (fun f => (key_default f =? k)%Z) files
                  = filter (fun f => (key_default f =? k)%Z)
                      (filter is_candidate Fixture.listing)).
Proof.
  apply (proj2 (@C7_migration_files nat Fixture.env_distinct Fixture.dir Fixture.w0)
           Fixture.listing eq_refl).
  intros f Hin Hc.
  repeat (destruct Hin as [<- | Hin]; [try discriminate Hc; vm_compute; discriminate|]).
  destruct Hin.
Defined.

(** C10.  When the directory exists and lists a candidate whose part before
    the first underscore is no integer for [int], [apply_all_migrations]
    raises [ValueError] from the sort of line 58: the directory has been
    listed and nothing else has happened -- no file loaded, no unit called,
    the collection untouched.  [ValueError] is none of the other exceptions
    of the manager. *)
Theorem C10_apply_all_migrations_value_error
  {D} (env : environment D) module_name migrations_dir (w : world D) entries f :
  let path := migrations_path_of env module_name migrations_dir in
  stat env path = Directory entries ->
  In f entries ->
  is_candidate f = true ->
  key_of f = None ->
  exists g,
    In g entries /\ is_candidate g = true /\ key_of g = None
    /\ apply_all_migrations env module_name migrations_dir w
       = (inl (ValueError (PyStr.split_head "_" g)), logged w [EvListdir path])
    /\ loads (trace (logged w [EvListdir path])) = loads (trace w)
    /\ migrates (trace (logged w [EvListdir path])) = migrates (trace w)
    /\ ValueError (PyStr.split_head "_" g) <> FileNotFoundError path
    /\ (forall n, ValueError (PyStr.split_head "_" g) <> PreviousNotApplied n).
Proof.
  intros path Hd Hin Hc Hk.
  destruct (find (fun f => negb (has_key f)) (filter is_candidate entries))
    as [g|] eqn:E.
  - pose proof (find_some _ _ E) as [Hg Hno].
    apply filter_In in Hg. destruct Hg as [Hg Hgc].
    exists g. split; [exact Hg|]. split; [exact Hgc|]. split.
    { unfold has_key in Hno. destruct (key_of g); [discriminate | reflexivity]. }
    split.
    { unfold apply_all_migrations. fold path. unfold bind.
      rewrite migration_files_eq, Hd, E. reflexivity. }
    cbn [logged trace]. rewrite loads_app, migrates_app. cbn.
    rewrite !app_nil_r. repeat split; discriminate.
  - exfalso. pose proof (find_none _ _ E f) as Hn.
    rewrite filter_In in Hn. specialize (Hn (conj Hin Hc)).
    unfold has_key in Hn. rewrite Hk in Hn. discriminate.
Qed.

Lemma C10_witness :
  exists g,
    In g ["0001_a.py"; "notes.py"] /\ is_candidate g = true /\ key_of g = None
    /\ apply_all_migrations Fixture.env_notes (Some "app") "migrations" Fixture.w0
       = (inl (ValueError (PyStr.split_head "_" g)),
          logged Fixture.w0 [EvListdir Fixture.dir])
    /\ loads (trace (logged Fixture.w0 [EvListdir Fixture.dir])) = loads (trace Fixture.w0)
    /\ migrates (trace (logged Fixture.w0 [EvListdir Fixture.dir]))
       = migrates (trace Fixture.w0)
    /\ ValueError (PyStr.split_head "_" g) <> FileNotFoundError Fixture.dir
    /\ (forall n, ValueError (PyStr.split_head "_" g) <> PreviousNotApplied n).
Proof.
  apply (@C10_apply_all_migrations_value_error nat Fixture.env_notes
           (Some "app") "migrations" Fixture.w0 ["0001_a.py"; "notes.py"] "notes.py").
  - reflexivity.
  - right. left. reflexivity.
  - reflexivity.
  - reflexivity.
Defined.

(** ** The loop of [apply_all_migrations] (lines 67-70) *)

Section Loop.

Context {D : Type}.
Variable env : environment D.

Lemma apply_all_migrations_eq module_name migrations_dir :
  apply_all_migrations env module_name migrations_dir
  = (files <- migration_files env
                (migrations_path_of env module_name migrations_dir) ;;
     for_each files
       (loop_body env (migrations_path_of env module_name migrations_dir))).
Proof. reflexivity. Qed.

(** One call loads one file and calls [migrate] at most once. *)
Lemma apply_migration_trace nm path (w : world D) :
  loads (trace (snd (apply_migration env nm path w))) = loads (trace w) ++ [path]
  /\ (List.length (migrates (trace (snd (apply_migration env nm path w))))
      <= S (List.length (migrates (trace w))))%nat.
Proof.
  destruct (apply_migration_cases env nm path w)
    as [[res H] | (u & n & Hl & Hi & Hg & Hf)].
  - rewrite H. cbn. rewrite loads_app, migrates_app. cbn.
    rewrite app_nil_r. split; [reflexivity | lia].
  - rewrite (apply_migration_runs env nm path w Hl Hi Hg Hf). cbv zeta.
    destruct (BaseMigration.migrate u (migrations_collection w, db w))
      as [[c1 d1] [e1|]]; [|destruct (Collection.int64 n)]; cbn;
      rewrite loads_app, migrates_app, length_app; cbn; split;
      try reflexivity; lia.
Qed.

Variable path : string.

Lemma for_each_cons f l (w : world D) :
  for_each (f :: l) (loop_body env path) w
  = match loop_body env path f w with
    | (inl e, w') => (inl e, w')
    | (inr _, w') => for_each l (loop_body env path) w'
    end.
Proof. reflexivity. Qed.

(** A loop that got through its list has loaded every file of it, in the
    order of the list. *)
Lemma for_each_done l : forall (w w' : world D),
  for_each l (loop_body env path) w = (inr tt, w') ->
  loads (trace w') = loads (trace w) ++ map (fun g => PyStr.join path [g]) l
  /\ (List.length (migrates (trace w'))
      <= List.length (migrates (trace w)) + List.length l)%nat.
Proof.
  induction l as [|f l IH]; intros w w' H.
  - cbn in H. inversion H; subst. cbn. rewrite app_nil_r. split; [reflexivity | lia].
  - rewrite for_each_cons in H.
    pose proof (apply_migration_trace (PyStr.drop_last3 f) (PyStr.join path [f]) w)
      as [Hl Hm].
    fold (loop_body env path f) in Hl, Hm.
    destruct (loop_body env path f w) as [[e|[]] w1]; [discriminate|].
    cbn [snd] in Hl, Hm. destruct (IH _ _ H) as [Hl' Hm'].
    rewrite Hl', Hl, <- app_assoc. cbn [map app List.length]. split; [reflexivity | lia].
Qed.

(** The loop ends at the first file whose application raises. *)
Lemma for_each_stops pre : forall f post e (w1 w2 w3 : world D),
  for_each pre (loop_body env path) w1 = (inr tt, w2) ->
  loop_body env path f w2 = (inl e, w3) ->
  for_each (pre ++ f :: post) (loop_body env path) w1 = (inl e, w3).
Proof.
  induction pre as [|g pre IH]; intros f post e w1 w2 w3 Hpre Hf.
  - cbn in Hpre. inversion Hpre; subst. cbn [app]. rewrite for_each_cons, Hf.
    reflexivity.
  - cbn [app]. rewrite for_each_cons in *.
    destruct (loop_body env path g w1) as [[e'|[]] w']; [discriminate|].
    eapply IH; eassumption.
Qed.

End Loop.

(** C8.  When the sorted list of files is [pre ++ f :: post], the files of
    [pre] have been applied and applying [f] raises [e], then
    [apply_all_migrations] raises [e] and ends in the world the failed call
    left: the files loaded are those of [pre] and [f], in that order, and no
    file of [post] is loaded or applied. *)
Theorem C8_apply_all_migrations_stops
  {D} (env : environment D) module_name migrations_dir
  (w w1 w2 w3 : world D) pre f post e :
  let path := migrations_path_of env module_name migrations_dir in
  migration_files env path w = (inr (pre ++ f :: post), w1) ->
  for_each pre (loop_body env path) w1 = (inr tt, w2) ->
  loop_body env path f w2 = (inl e, w3) ->
  apply_all_migrations env module_name migrations_dir w = (inl e, w3)
  /\ loads (trace w3)
     = loads (trace w) ++ map (fun g => PyStr.join path [g]) (pre ++ [f])
  /\ (List.length (migrates (trace w3))
      <= List.length (migrates (trace w)) + List.length pre + 1)%nat.
Proof.
  intros path Hfiles Hpre Hf. split.
  - rewrite apply_all_migrations_eq. fold path. unfold bind. rewrite Hfiles.
    eapply for_each_stops; eassumption.
  - assert (Hw1 : w1 = logged w [EvListdir path]).
    { rewrite migration_files_eq in Hfiles.
      destruct (stat env path) as [| |entries]; try discriminate.
      inversion Hfiles. reflexivity. }
    destruct (@for_each_done _ env path pre w1 w2 Hpre) as [Hl Hm].
    pose proof (apply_migration_trace env (PyStr.drop_last3 f)
                  (PyStr.join path [f]) w2) as [Hl3 Hm3].
    fold (loop_body env path f) in Hl3, Hm3. rewrite Hf in Hl3, Hm3.
    cbn [snd] in Hl3, Hm3.
    assert (Hl1 : loads (trace w1) = loads (trace w)).
    { subst w1. cbn. rewrite loads_app. cbn. now rewrite app_nil_r. }
    assert (Hm1 : migrates (trace w1) = migrates (trace w)).
    { subst w1. cbn. rewrite migrates_app. cbn. now rewrite app_nil_r. }
    split.
    + rewrite Hl3, Hl, Hl1, map_app, <- app_assoc. reflexivity.
    + rewrite Hm1 in Hm. lia.
Qed.

Lemma C8_witness :
  apply_all_migrations Fixture.env_failing (Some "app") "migrations" Fixture.w0
  = (inl Fixture.boom,
     World [Document "CreateA" 1 true] 2%nat
       [EvListdir Fixture.dir; EvLoad "0001_a" Fixture.path_a; EvMigrate "CreateA";
        EvLoad "0002_b" Fixture.path_b; EvMigrate "CreateB"])
  /\ loads [EvListdir Fixture.dir; EvLoad "0001_a" Fixture.path_a; EvMigrate "CreateA";
            EvLoad "0002_b" Fixture.path_b; EvMigrate "CreateB"]
     = loads [] ++ map (fun g => PyStr.join Fixture.dir [g]) (["0001_a.py"] ++ ["0002_b.py"])
  /\ (List.length (migrates
        [EvListdir Fixture.dir; EvLoad "0001_a" Fixture.path_a; EvMigrate "CreateA";
         EvLoad "0002_b" Fixture.path_b; EvMigrate "CreateB"])
      <= List.length (migrates (@nil event)) + List.length ["0001_a.py"] + 1)%nat.
Proof.
  apply (@C8_apply_all_migrations_stops nat Fixture.env_failing (Some "app")
           "migrations" Fixture.w0
           (logged Fixture.w0 [EvListdir Fixture.dir])
           (World [Document "CreateA" 1 true] 1%nat
              [EvListdir Fixture.dir; EvLoad "0001_a" Fixture.path_a; EvMigrate "CreateA"])
           (World [Document "CreateA" 1 true] 2%nat
              [EvListdir Fixture.dir; EvLoad "0001_a" Fixture.path_a; EvMigrate "CreateA";
               EvLoad "0002_b" Fixture.path_b; EvMigrate "CreateB"])
           ["0001_a.py"] "0002_b.py" ["0003_c.py"] Fixture.boom).
  - reflexivity.
  - reflexivity.
  - reflexivity.
Defined.

(** ** A whole run of [apply_all_migrations] *)

Lemma orders_upto_sorted_from (n : nat) : forall i,
  StronglySorted Z.le (map Z.of_nat (seq i n)).
Proof.
  induction n as [|n IH]; intros i; cbn; constructor; [apply IH|].
  apply Forall_forall. intros k Hk. apply in_map_iff in Hk.
  destruct Hk as [j [<- Hj]]. apply in_seq in Hj. lia.
Qed.

Lemma find_one_by_order_In n c r :
  In r c -> order r = n ->
  exists r', Collection.find_one (Collection.by_order n) c = Some r'.
Proof.
  intros Hin Ho.
  destruct (Collection.find_one (Collection.by_order n) c) as [r'|] eqn:E;
    [now exists r'|].
  exfalso. exact (proj1 (find_one_by_order_None n c) E r Hin Ho).
Qed.

Lemma int64_of_nat (j : nat) :
  (Z.of_nat j <= 2 ^ 63 - 1)%Z -> Collection.int64 (Z.of_nat j) = true.
Proof.
  intros H. unfold Collection.int64. apply andb_true_iff.
  split; apply Z.leb_le; lia.
Qed.

Section Contiguous.

Context {D : Type}.
Variable env : environment D.
Variable path : string.
Variable unit_of : string -> BaseMigration.t D.

Lemma migrated_cons f files (cd : database D) :
  migrated unit_of (f :: files) cd
  = migrated unit_of files
      (fst (fst (BaseMigration.migrate (unit_of f) cd)) ++ [record_of unit_of f],
       snd (fst (BaseMigration.migrate (unit_of f) cd))).
Proof. reflexivity. Qed.

(** Files of orders [i+1, i+2, ...] whose units have names of their own,
    none of them in the collection, are applied one after the other, each
    leaving its record. *)
Lemma for_each_contiguous files : forall (i : nat) (w : world D),
  map key_default files = map Z.of_nat (seq (S i) (List.length files)) ->
  (forall f, In f files -> applicable env path unit_of f) ->
  NoDup (map (unit_name unit_of) files) ->
  (forall f, In f files -> ~ In (unit_name unit_of f) (map name (migrations_collection w))) ->
  (i = 0%nat \/ exists r, In r (migrations_collection w) /\ order r = Z.of_nat i) ->
  (Z.of_nat (i + List.length files) <= 2 ^ 63 - 1)%Z ->
  exists w',
    for_each files (loop_body env path) w = (inr tt, w')
    /\ migrations_collection w' = migrations_collection w ++ map (record_of unit_of) files
    /\ migrates (trace w') = migrates (trace w) ++ map (unit_name unit_of) files
    /\ loads (trace w')
       = loads (trace w) ++ map (fun g => PyStr.join path [g]) files
    /\ (migrations_collection w', db w')
       = migrated unit_of files (migrations_collection w, db w).
Proof.
  induction files as [|f files IH]; intros i w Hkeys Happ Hnd Hfresh Hgate Hbound.
  - exists w. cbn. rewrite !app_nil_r. repeat split.
  - cbn [map List.length seq] in Hkeys.
    pose proof (f_equal (@hd Z 0%Z) Hkeys) as Hk.
    pose proof (f_equal (@tl Z) Hkeys) as Hkeys'.
    cbn [hd tl] in Hk, Hkeys'.
    destruct (Happ f (or_introl eq_refl)) as (Hpy & Hkey & Hload & Hok & Hquiet).
    assert (Hint : PyStr.int (PyStr.split_head "_" (PyStr.drop_last3 f))
                   = Some (Z.of_nat (S i))).
    { rewrite <- Hk. apply module_name_key; assumption. }
    assert (Hg : gate_open (Z.of_nat (S i)) (migrations_collection w) = true).
    { unfold gate_open. destruct Hgate as [-> | (r & Hr & Ho)]; [reflexivity|].
      replace (Z.of_nat (S i) - 1)%Z with (Z.of_nat i) by lia.
      destruct (find_one_by_order_In _ _ Hr Ho) as [r' ->].
      apply orb_true_r. }
    assert (Hf : Collection.find_one (Collection.by_name (unit_name unit_of f))
                   (migrations_collection w) = None).
    { apply find_one_by_name_None. apply Hfresh. now left. }
    assert (H64 : Collection.int64 (Z.of_nat (S i)) = true).
    { apply int64_of_nat. cbn [List.length] in Hbound. lia. }
    rewrite for_each_cons. unfold loop_body at 1.
    rewrite (apply_migration_runs env _ _ w Hload Hint Hg Hf). cbv zeta.
    rewrite migrated_cons.
    pose proof (Hok (migrations_collection w, db w)) as Hm.
    pose proof (Hquiet (migrations_collection w) (db w)) as Hc1.
    destruct (BaseMigration.migrate (unit_of f) (migrations_collection w, db w))
      as [[c1 d1] r1].
    cbn in Hm, Hc1. subst r1 c1. rewrite H64. cbn [fst snd].
    inversion Hnd as [|? ? Hnf Hnd']; subst.
    match goal with
    | |- exists w', for_each _ _ ?w1 = _ /\ _ =>
        destruct (IH (S i) w1) as (w' & Hrun & Hc & Hm' & Hl' & Hdb)
    end.
    + rewrite Hkeys'. reflexivity.
    + intros g Hg'. apply Happ. now right.
    + exact Hnd'.
    + intros g Hg'. cbn [migrations_collection].
      unfold Collection.insert_one. rewrite map_app. cbn [map name].
      intros Hin. apply in_app_or in Hin. destruct Hin as [Hin | [E | []]].
      * exact (Hfresh g (or_intror Hg') Hin).
      * apply Hnf. fold (unit_name unit_of f) in E. rewrite E.
        now apply in_map.
    + right. exists (record_of unit_of f). cbn [migrations_collection]. split.
      * unfold Collection.insert_one. apply in_or_app. right. left.
        unfold record_of, unit_name. rewrite Hk. reflexivity.
      * unfold record_of. cbn [order]. exact Hk.
    + cbn [List.length] in Hbound. lia.
    + exists w'. split; [exact Hrun|].
      assert (Hdb' : (migrations_collection w', db w')
                     = migrated unit_of files
                         (migrations_collection w ++ [record_of unit_of f], d1)).
      { rewrite Hdb. cbn [migrations_collection db].
        unfold Collection.insert_one, record_of, unit_name. rewrite Hk.
        reflexivity. }
      cbn [migrations_collection trace db] in Hc, Hm', Hl'.
      split; [|split; [|split; [|exact Hdb']]].
      * rewrite Hc. unfold Collection.insert_one. rewrite <- app_assoc.
        cbn [map app]. do 2 f_equal. unfold record_of, unit_name.
        now rewrite Hk.
      * rewrite Hm', migrates_app, <- app_assoc. reflexivity.
      * rewrite Hl', loads_app, <- app_assoc. reflexivity.
Qed.

End Contiguous.

(** With the class names pairwise distinct and units that do not write the
    [migrations] collection, a set of orders [1..n] is applied whole: from
    an empty collection, [apply_all_migrations] returns
    normally, the units have been applied in ascending order of their
    integer prefix and the collection holds [n] records, one per migration,
    of orders [1..n]. *)
Theorem apply_all_migrations_distinct_names
  {D} (env : environment D) module_name migrations_dir (w : world D)
  entries (unit_of : string -> BaseMigration.t D) (n : nat) :
  let path := migrations_path_of env module_name migrations_dir in
  let candidates := filter is_candidate entries in
  let name_of := fun f => BaseMigration.class_name (unit_of f) in
  stat env path = Directory entries ->
  Permutation (map key_of candidates) (map Some (orders_upto n)) ->
  (forall f, In f candidates ->
     load env (PyStr.drop_last3 f) (PyStr.join path [f]) = inr (unit_of f)) ->
  (forall f cd, In f candidates ->
     snd (BaseMigration.migrate (unit_of f) cd) = None) ->
  (forall f, In f candidates ->
     leaves_collection (BaseMigration.migrate (unit_of f))) ->
  NoDup (map name_of candidates) ->
  (Z.of_nat n <= 2 ^ 63 - 1)%Z ->
  migrations_collection w = [] ->
  exists files w',
    apply_all_migrations env module_name migrations_dir w = (inr tt, w')
    /\ Permutation files candidates
    /\ map key_default files = orders_upto n
    /\ migrations_collection w'
       = map (fun f => Document (name_of f) (key_default f) true) files
    /\ map order (migrations_collection w') = orders_upto n
    /\ List.length (migrations_collection w') = n
    /\ migrates (trace w') = migrates (trace w) ++ map name_of files
    /\ loads (trace w')
       = loads (trace w) ++ map (fun g => PyStr.join path [g]) files.
Proof.
  intros path candidates name_of Hd Hperm Hload Hok Hquiet Hnd Hbound Hempty.
  set (files := sort_by key_default candidates).
  assert (Hpf : Permutation files candidates) by apply sort_by_perm.
  assert (Hkey : forall f, In f candidates -> key_of f = Some (key_default f)).
  { intros f Hf. assert (Hin : In (key_of f) (map Some (orders_upto n))).
    { eapply Permutation_in; [exact Hperm | now apply in_map]. }
    apply in_map_iff in Hin. destruct Hin as [k [Hk _]].
    unfold key_default. now rewrite <- Hk. }
  assert (Hkeys : map key_default files = orders_upto n).
  { apply sorted_perm_eq.
    - pose proof (sort_by_sorted key_default candidates) as Hs. fold files in Hs.
      clearbody files. clear -Hs. induction Hs as [|a l Hs IH Ha]; cbn; constructor.
      + exact IH.
      + apply Forall_forall. intros k Hk. apply in_map_iff in Hk.
        destruct Hk as [b [<- Hb]]. rewrite Forall_forall in Ha. now apply Ha.
    - apply orders_upto_sorted_from.
    - eapply Permutation_trans; [apply Permutation_map, Hpf|].
      pose proof (Permutation_map
                    (fun o : option Z => match o with Some k => k | None => 0%Z end)
                    Hperm) as Hp.
      rewrite !map_map in Hp. cbn in Hp. rewrite map_id in Hp. exact Hp. }
  assert (Hlen : List.length files = n).
  { rewrite <- (length_map key_default), Hkeys. unfold orders_upto.
    now rewrite length_map, length_seq. }
  assert (Hfiles : migration_files env path w = (inr files, logged w [EvListdir path])).
  { rewrite migration_files_eq, Hd. fold candidates.
    destruct (find _ _) as [f|] eqn:E; [|reflexivity].
    apply find_some in E. destruct E as [Hin Hno].
    unfold has_key in Hno. rewrite (Hkey f Hin) in Hno. discriminate. }
  destruct (@for_each_contiguous D env path unit_of files 0%nat
              (logged w [EvListdir path]))
    as (w' & Hrun & Hc & Hm & Hl & _).
  - rewrite Hkeys, Hlen. reflexivity.
  - intros f Hf.
    assert (Hfc : In f candidates) by (eapply Permutation_in; eassumption).
    repeat split.
    + unfold candidates in Hfc. apply filter_In in Hfc. destruct Hfc as [_ Hc].
      unfold is_candidate in Hc. apply andb_true_iff in Hc. tauto.
    + now apply Hkey.
    + now apply Hload.
    + intros cd. now apply Hok.
    + now apply Hquiet.
  - apply (Permutation_NoDup (l := map name_of candidates)); [|exact Hnd].
    apply Permutation_map, Permutation_sym, Hpf.
  - intros f _. cbn [logged migrations_collection]. rewrite Hempty. intros [].
  - now left.
  - rewrite Hlen. exact Hbound.
  - exists files, w'. cbn [logged migrations_collection trace] in Hc, Hm, Hl.
    rewrite Hempty in Hc. cbn [app] in Hc.
    rewrite migrates_app in Hm. rewrite loads_app in Hl. cbn in Hm, Hl.
    rewrite app_nil_r in Hm, Hl.
    split.
    { rewrite apply_all_migrations_eq. fold path. unfold bind. rewrite Hfiles.
      exact Hrun. }
    split; [exact Hpf|]. split; [exact Hkeys|]. split; [exact Hc|].
    split; [rewrite Hc, map_map; exact Hkeys|].
    split; [rewrite Hc, length_map; exact Hlen|].
    split; [exact Hm | exact Hl].
Qed.

Lemma apply_all_migrations_distinct_names_witness :
  exists files w',
    apply_all_migrations Fixture.env_distinct (Some "app") "migrations" Fixture.w0
    = (inr tt, w')
    /\ Permutation files (filter is_candidate Fixture.listing)
    /\ map key_default files = orders_upto 3
    /\ migrations_collection w'
       = map (fun f => Document
                         (BaseMigration.class_name (Fixture.unit_of_file f))
                         (key_default f) true) files
    /\ map order (migrations_collection w') = orders_upto 3
    /\ List.length (migrations_collection w') = 3%nat
    /\ migrates (trace w')
       = migrates (trace Fixture.w0)
         ++ map (fun f => BaseMigration.class_name (Fixture.unit_of_file f)) files
    /\ loads (trace w')
       = loads (trace Fixture.w0) ++ map (fun g => PyStr.join Fixture.dir [g]) files.
Proof.
  apply (@apply_all_migrations_distinct_names nat Fixture.env_distinct
           (Some "app") "migrations" Fixture.w0 Fixture.listing
           Fixture.unit_of_file 3%nat).
  - reflexivity.
  - apply perm_swap.
  - intros f Hin.
    repeat (destruct Hin as [<- | Hin]; [reflexivity|]). destruct Hin.
  - intros f cd Hin.
    repeat (destruct Hin as [<- | Hin]; [reflexivity|]). destruct Hin.
  - intros f Hin c d.
    repeat (destruct Hin as [<- | Hin]; [reflexivity|]). destruct Hin.
  - vm_compute. repeat constructor; cbn; intuition discriminate.
  - discriminate.
  - reflexivity.
Defined.

(** C1 at files written like the example migration of the repository, each
    with [class Migration]; every [migrate] would succeed and the collection
    is empty.  With orders [1, 2], [apply_all_migrations] returns normally
    with one record, of order 1: the second file is loaded and its unit is
    never applied, its name being already in the collection.  With orders
    [1, 2, 3] the third file then finds no record of order 2 and the call
    raises, still with that one record. *)
Theorem C1_same_class_name_one_record :
  (map key_of (filter is_candidate ["0001_a.py"; "0002_b.py"])
   = map Some (orders_upto 2)
   /\ apply_all_migrations Fixture.env_same (Some "app") "migrations" Fixture.w0
      = (inr tt,
         World [Document "Migration" 1 true] 1%nat
           [EvListdir Fixture.dir;
            EvLoad "0001_a" Fixture.path_a; EvMigrate "Migration";
            EvLoad "0002_b" Fixture.path_b]))
  /\ (map key_of (filter is_candidate ["0001_a.py"; "0002_b.py"; "0003_c.py"])
      = map Some (orders_upto 3)
      /\ apply_all_migrations Fixture.env_same3 (Some "app") "migrations" Fixture.w0
         = (inl (PreviousNotApplied 2),
            World [Document "Migration" 1 true] 1%nat
              [EvListdir Fixture.dir;
               EvLoad "0001_a" Fixture.path_a; EvMigrate "Migration";
               EvLoad "0002_b" Fixture.path_b;
               EvLoad "0003_c" "/srv/app/migrations/0003_c.py"])).
Proof. repeat split; reflexivity. Qed.

(** * Further properties of the code *)

(** ** One migration *)

Lemma gate_open_insert n c r :
  gate_open n c = true -> gate_open n (Collection.insert_one r c) = true.
Proof.
  unfold gate_open, Collection.insert_one, Collection.find_one.
  destruct (negb (n >? 1)%Z); [reflexivity|]. cbn [orb].
  destruct (find _ c) as [x|] eqn:E; [|discriminate]. intros _.
  apply find_some in E. destruct E as [Hin Hm].
  destruct (find (Collection.matches (Collection.by_order (n - 1))) (c ++ [r]))
    as [y|] eqn:E'; [reflexivity|].
  rewrite (find_none _ _ E' x) in Hm; [discriminate|].
  apply in_or_app. now left.
Qed.

Lemma find_one_insert_one_same q c r :
  Collection.matches q r = true ->
  exists r', Collection.find_one q (Collection.insert_one r c) = Some r'.
Proof.
  intros Hm. unfold Collection.find_one, Collection.insert_one.
  destruct (find (Collection.matches q) (c ++ [r])) as [y|] eqn:E;
    [now exists y|].
  rewrite (find_none _ _ E r) in Hm; [discriminate|].
  apply in_or_app. right. now left.
Qed.

Lemma delete_one_insert_one q c r :
  Collection.find_one q c = None ->
  Collection.matches q r = true ->
  Collection.delete_one q (Collection.insert_one r c) = c.
Proof.
  unfold Collection.insert_one. intros Hf Hm.
  induction c as [|x c IH]; cbn.
  - now rewrite Hm.
  - unfold Collection.find_one in Hf. cbn in Hf.
    destruct (Collection.matches q x); [discriminate|].
    now rewrite (IH Hf).
Qed.

Lemma delete_one_clears_name s c :
  names_unique c ->
  Collection.find_one (Collection.by_name s)
    (Collection.delete_one (Collection.by_name s) c) = None.
Proof.
  intros Hu.
  destruct (delete_one_spec (Collection.by_name s) c)
    as [[Hf Hd] | (l1 & r & l2 & Hc & Hf & Hm & Hl1 & Hd)].
  - now rewrite Hd.
  - rewrite Hd. apply find_one_by_name_None.
    unfold names_unique in Hu. rewrite Hc, map_app in Hu. cbn [map] in Hu.
    apply NoDup_remove_2 in Hu. cbn in Hm. apply String.eqb_eq in Hm.
    rewrite Hm in Hu. now rewrite map_app.
Qed.

(** The five ways a call of [apply_migration] ends, in the order the code
    tests them: the file does not load; the module name has no integer
    before its first underscore; the record of the predecessor is missing;
    the name is already recorded; [migrate] is called. *)
Lemma apply_migration_outcomes {D} (env : environment D) nm path (w : world D) :
  (exists e,
      load env nm path = inl e
      /\ apply_migration env nm path w = (inl e, logged w [EvLoad nm path]))
  \/ (exists u,
        load env nm path = inr u
        /\ PyStr.int (PyStr.split_head "_" nm) = None
        /\ apply_migration env nm path w
           = (inl (ValueError (PyStr.split_head "_" nm)), logged w [EvLoad nm path]))
  \/ (exists u n,
        load env nm path = inr u
        /\ PyStr.int (PyStr.split_head "_" nm) = Some n
        /\ gate_open n (migrations_collection w) = false
        /\ apply_migration env nm path w
           = (inl (PreviousNotApplied (n - 1)), logged w [EvLoad nm path]))
  \/ (exists u n r,
        load env nm path = inr u
        /\ PyStr.int (PyStr.split_head "_" nm) = Some n
        /\ gate_open n (migrations_collection w) = true
        /\ Collection.find_one (Collection.by_name (BaseMigration.class_name u))
             (migrations_collection w) = Some r
        /\ apply_migration env nm path w = (inr tt, logged w [EvLoad nm path]))
  \/ (exists u n,
        load env nm path = inr u
        /\ PyStr.int (PyStr.split_head "_" nm) = Some n
        /\ gate_open n (migrations_collection w) = true
        /\ Collection.find_one (Collection.by_name (BaseMigration.class_name u))
             (migrations_collection w) = None).
Proof.
  destruct (load env nm path) as [e|u] eqn:Hl.
  { left. exists e. split; [reflexivity|].
    apply apply_migration_load_error. exact Hl. }
  right.
  destruct (PyStr.int (PyStr.split_head "_" nm)) as [n|] eqn:Hi.
  2:{ left. exists u. split; [reflexivity|]. split; [reflexivity|].
      eapply apply_migration_value_error; eassumption. }
  right.
  destruct (gate_open n (migrations_collection w)) eqn:Hg.
  2:{ left. exists u, n. do 3 (split; [first [reflexivity | assumption]|]).
      eapply apply_migration_gate_closed; eassumption. }
  right.
  destruct (Collection.find_one (Collection.by_name (BaseMigration.class_name u))
              (migrations_collection w)) as [r|] eqn:Hf.
  { left. exists u, n, r. do 4 (split; [first [reflexivity | assumption]|]).
    eapply apply_migration_already_applied; eassumption. }
  right. exists u, n. repeat split; first [reflexivity | assumption].
Qed.

(** X2.  A call of [apply_migration] that returned normally, of a unit
    whose [migrate] does not write the [migrations] collection, makes the
    same call a no-op: made again on the world it left, it returns
    normally, calls no [migrate] and changes nothing but the trace, by one
    load. *)
Theorem apply_migration_twice {D} (env : environment D) nm path (w : world D) :
  (forall u, load env nm path = inr u ->
             leaves_collection (BaseMigration.migrate u)) ->
  fst (apply_migration env nm path w) = inr tt ->
  let w1 := snd (apply_migration env nm path w) in
  apply_migration env nm path w1 = (inr tt, logged w1 [EvLoad nm path])
  /\ migrations_collection (snd (apply_migration env nm path w1))
     = migrations_collection w1
  /\ db (snd (apply_migration env nm path w1)) = db w1
  /\ migrates (trace (snd (apply_migration env nm path w1))) = migrates (trace w1).
Proof.
  intros Hq Hok w1.
  assert (H1 : apply_migration env nm path w1 = (inr tt, logged w1 [EvLoad nm path])).
  { subst w1.
    destruct (apply_migration_outcomes env nm path w)
      as [(e & _ & H) | [(u & _ & _ & H) | [(u & n & _ & _ & _ & H)
         | [(u & n & r & Hl & Hi & Hg & Hf & H) | (u & n & Hl & Hi & Hg & Hf)]]]];
      try (rewrite H in Hok |- *; try discriminate Hok).
    - cbn [snd]. eapply apply_migration_already_applied; try eassumption.
    - rewrite (apply_migration_runs env nm path w Hl Hi Hg Hf) in Hok |- *.
      cbv zeta in *.
      pose proof (Hq u Hl (migrations_collection w) (db w)) as Hc.
      destruct (BaseMigration.migrate u (migrations_collection w, db w))
        as [[c1 d1] [e1|]]; [discriminate Hok|]. cbn in Hc. subst c1.
      destruct (Collection.int64 n); [|discriminate Hok]. cbn [snd].
      destruct (@find_one_insert_one_same
                  (Collection.by_name (BaseMigration.class_name u))
                  (migrations_collection w)
                  (Document (BaseMigration.class_name u) n true))
        as [r' Hr']; [cbn; apply String.eqb_refl|].
      eapply apply_migration_already_applied with (r := r'); try eassumption.
      cbn [migrations_collection].
      exact (gate_open_insert n (migrations_collection w) _ Hg). }
  rewrite H1. cbn. repeat split. rewrite migrates_app. cbn. now rewrite app_nil_r.
Qed.

Lemma apply_migration_twice_witness :
  let w1 := snd (apply_migration Fixture.env_distinct "0001_a" Fixture.path_a
                   Fixture.w0) in
  apply_migration Fixture.env_distinct "0001_a" Fixture.path_a w1
  = (inr tt, logged w1 [EvLoad "0001_a" Fixture.path_a])
  /\ migrations_collection
       (snd (apply_migration Fixture.env_distinct "0001_a" Fixture.path_a w1))
     = migrations_collection w1
  /\ db (snd (apply_migration Fixture.env_distinct "0001_a" Fixture.path_a w1))
     = db w1
  /\ migrates
       (trace (snd (apply_migration Fixture.env_distinct "0001_a" Fixture.path_a w1)))
     = migrates (trace w1).
Proof.
  apply (@apply_migration_twice nat Fixture.env_distinct "0001_a" Fixture.path_a
           Fixture.w0).
  - intros u Hu. exact (proj1 (env_distinct_quiet _ _ Hu)).
  - reflexivity.
Defined.

(** X1.  Applying a migration that is not recorded and rolling it back,
    both operations of the unit returning without writing the [migrations]
    collection and the order fitting 64 bits, leaves the collection as it
    was before the two calls; the unit's [migrate] and then its
    [rollback_migration] have each been called once. *)
Theorem apply_then_rollback {D} (env : environment D) nm path (w : world D)
  u n d1 d2 :
  load env nm path = inr u ->
  PyStr.int (PyStr.split_head "_" nm) = Some n ->
  Collection.int64 n = true ->
  predecessor_recorded n (migrations_collection w) ->
  ~ recorded (BaseMigration.class_name u) (migrations_collection w) ->
  BaseMigration.migrate u (migrations_collection w, db w)
  = ((migrations_collection w, d1), None) ->
  BaseMigration.rollback_migration u
    (migrations_collection w ++ [Document (BaseMigration.class_name u) n true], d1)
  = ((migrations_collection w ++ [Document (BaseMigration.class_name u) n true], d2),
     None) ->
  let (r1, w1) := apply_migration env nm path w in
  let (r2, w2) := rollback_migration env nm path w1 in
  r1 = inr tt /\ r2 = inr tt
  /\ migrations_collection w1
     = migrations_collection w ++ [Document (BaseMigration.class_name u) n true]
  /\ migrations_collection w2 = migrations_collection w
  /\ db w2 = d2
  /\ trace w2
     = trace w ++ [EvLoad nm path; EvMigrate (BaseMigration.class_name u);
                   EvLoad nm path; EvRollback (BaseMigration.class_name u)].
Proof.
  intros Hl Hi H64 Hg Hf Hm Hr.
  apply gate_open_iff in Hg. apply not_recorded_find in Hf.
  rewrite (apply_migration_runs env nm path w Hl Hi Hg Hf). cbv zeta.
  rewrite Hm, H64.
  rewrite (rollback_migration_runs env nm path _ Hl). cbv zeta.
  cbn [db migrations_collection trace]. unfold Collection.insert_one at 1.
  rewrite Hr. cbn [db migrations_collection trace].
  fold (Collection.insert_one (Document (BaseMigration.class_name u) n true)
          (migrations_collection w)).
  rewrite delete_one_insert_one; [|exact Hf | cbn; apply String.eqb_refl].
  rewrite <- app_assoc. repeat split.
Qed.

Lemma apply_then_rollback_witness :
  let (r1, w1) :=
    apply_migration Fixture.env_distinct "0002_b" Fixture.path_b Fixture.w_a in
  let (r2, w2) := rollback_migration Fixture.env_distinct "0002_b" Fixture.path_b w1 in
  r1 = inr tt /\ r2 = inr tt
  /\ migrations_collection w1
     = migrations_collection Fixture.w_a ++ [Document "CreateB" 2 true]
  /\ migrations_collection w2 = migrations_collection Fixture.w_a
  /\ db w2 = 1%nat
  /\ trace w2
     = trace Fixture.w_a ++ [EvLoad "0002_b" Fixture.path_b; EvMigrate "CreateB";
                             EvLoad "0002_b" Fixture.path_b; EvRollback "CreateB"].
Proof.
  apply (@apply_then_rollback nat Fixture.env_distinct "0002_b" Fixture.path_b
           Fixture.w_a (Fixture.counting "CreateB") 2%Z 2%nat 1%nat).
  - reflexivity.
  - reflexivity.
  - reflexivity.
  - right. exists (Document "CreateA" 1 true). split; [left|]; reflexivity.
  - intros (r & Hin & Hn). destruct Hin as [<- | []]. discriminate Hn.
  - reflexivity.
  - reflexivity.
Defined.

(** X3.  After a rollback that returned, when the names are unique in the
    collection as the unit's [rollback_migration] left it, no record of the
    unit's name is in the collection any more. *)
Theorem rollback_migration_clears_name {D} (env : environment D) nm path
  (w : world D) u c1 d1 :
  load env nm path = inr u ->
  BaseMigration.rollback_migration u (migrations_collection w, db w)
  = ((c1, d1), None) ->
  names_unique c1 ->
  fst (rollback_migration env nm path w) = inr tt
  /\ ~ recorded (BaseMigration.class_name u)
         (migrations_collection (snd (rollback_migration env nm path w)))
  /\ (forall r, In r (migrations_collection (snd (rollback_migration env nm path w))) ->
                name r <> BaseMigration.class_name u).
Proof.
  intros Hl Hm Hu. rewrite (rollback_migration_runs env nm path w Hl). cbv zeta.
  rewrite Hm. cbn [fst snd migrations_collection].
  assert (Hno : ~ recorded (BaseMigration.class_name u)
                    (Collection.delete_one
                       (Collection.by_name (BaseMigration.class_name u)) c1)).
  { apply not_recorded_find. now apply delete_one_clears_name. }
  split; [reflexivity|]. split; [exact Hno|].
  intros r Hr Hn. apply Hno. now exists r.
Qed.

Lemma rollback_migration_clears_name_witness :
  fst (rollback_migration Fixture.env_distinct "0002_b" Fixture.path_b Fixture.w_ab)
  = inr tt
  /\ ~ recorded "CreateB"
         (migrations_collection
            (snd (rollback_migration Fixture.env_distinct "0002_b" Fixture.path_b
                    Fixture.w_ab)))
  /\ (forall r,
        In r (migrations_collection
                (snd (rollback_migration Fixture.env_distinct "0002_b" Fixture.path_b
                        Fixture.w_ab))) ->
        name r <> "CreateB").
Proof.
  apply (@rollback_migration_clears_name nat Fixture.env_distinct "0002_b"
           Fixture.path_b Fixture.w_ab (Fixture.counting "CreateB")
           (migrations_collection Fixture.w_ab) 1%nat).
  - reflexivity.
  - reflexivity.
  - repeat constructor; cbn; intuition discriminate.
Defined.





(** X15.  Every record written by the manager has [applied = True]: in a
    collection reachable from the empty one by calls whose units do not
    themselves write it, every record has the flag set -- it is set on
    insertion and a rollback deletes the record instead of clearing it. *)
Theorem reachable_applied_true {D} (w : world D) :
  reachable_quiet w ->
  Forall (fun r => applied r = true) (migrations_collection w).
Proof.
  induction 1 as [d t | env nm path w Hq _ IH | env nm path w Hq _ IH].
  - constructor.
  - destruct (apply_migration_cases env nm path w)
      as [[res H] | (u & n & Hl & Hi & Hg & Hf)].
    + rewrite H. exact IH.
    + rewrite (apply_migration_runs env nm path w Hl Hi Hg Hf). cbv zeta.
      pose proof (proj1 (Hq nm path u Hl) (migrations_collection w) (db w)) as Hc.
      destruct (BaseMigration.migrate u (migrations_collection w, db w))
        as [[c1 d1] [e1|]]; cbn in Hc; subst c1; cbn; [exact IH|].
      destruct (Collection.int64 n); cbn; [|exact IH].
      unfold Collection.insert_one. apply Forall_app. split; [exact IH|].
      now constructor.
  - destruct (load env nm path) as [e|u] eqn:Hl.
    + rewrite (rollback_migration_load_error env nm path w Hl). exact IH.
    + rewrite (rollback_migration_runs env nm path w Hl). cbv zeta.
      pose proof (proj2 (Hq nm path u Hl) (migrations_collection w) (db w)) as Hc.
      destruct (BaseMigration.rollback_migration u (migrations_collection w, db w))
        as [[c1 d1] [e1|]]; cbn in Hc; subst c1; cbn; [exact IH|].
      apply Forall_forall. intros r Hr. rewrite Forall_forall in IH.
      apply IH. eapply delete_one_incl. exact Hr.
Qed.

Lemma reachable_applied_true_witness :
  Forall (fun r => applied r = true) (migrations_collection Fixture.w_only_b).
Proof.
  apply (@reachable_applied_true nat Fixture.w_only_b).
  unfold Fixture.w_only_b.
  apply reachable_quiet_rollback; [exact env_distinct_quiet|].
  apply reachable_quiet_apply; [exact env_distinct_quiet|].
  apply reachable_quiet_apply; [exact env_distinct_quiet|].
  exact (reachable_quiet_empty 0%nat []).
Defined.

(** ** Whole runs *)


(** What one call of [apply_migration] does to the collection and to the
    list of [migrate] calls, when the unit does not write the collection. *)
Lemma apply_migration_record {D} (env : environment D) nm path (w : world D) :
  (forall u, load env nm path = inr u ->
             leaves_collection (BaseMigration.migrate u)) ->
  let (res, w') := apply_migration env nm path w in
  exists added tail,
    migrations_collection w' = migrations_collection w ++ added
    /\ migrates (trace w') = migrates (trace w) ++ map name added ++ tail
    /\ Forall (fun r => applied r = true) added
    /\ (List.length tail <= 1)%nat
    /\ (res = inr tt -> tail = [])
    /\ rollbacks (trace w') = rollbacks (trace w).
Proof.
  intros Hq.
  destruct (apply_migration_cases env nm path w)
    as [[res H] | (u & n & Hl & Hi & Hg & Hf)].
  - rewrite H. exists [], []. cbn. rewrite migrates_app, rollbacks_app. cbn.
    rewrite !app_nil_r. repeat split; auto.
  - rewrite (apply_migration_runs env nm path w Hl Hi Hg Hf). cbv zeta.
    pose proof (Hq u Hl (migrations_collection w) (db w)) as Hc.
    destruct (BaseMigration.migrate u (migrations_collection w, db w))
      as [[c1 d1] [e1|]]; cbn in Hc; subst c1;
      [|destruct (Collection.int64 n)].
    + exists [], [BaseMigration.class_name u]. cbn.
      rewrite migrates_app, rollbacks_app. cbn. rewrite !app_nil_r.
      repeat split; auto. discriminate.
    + exists [Document (BaseMigration.class_name u) n true], []. cbn.
      rewrite migrates_app, rollbacks_app. cbn. rewrite !app_nil_r.
      repeat split; auto.
    + exists [], [BaseMigration.class_name u]. cbn.
      rewrite migrates_app, rollbacks_app. cbn. rewrite !app_nil_r.
      repeat split; auto. discriminate.
Qed.

Lemma for_each_record {D} (env : environment D) path l :
  (forall nm p u, load env nm p = inr u ->
                  leaves_collection (BaseMigration.migrate u)) ->
  forall (w : world D),
  let (res, w') := for_each l (loop_body env path) w in
  exists added tail,
    migrations_collection w' = migrations_collection w ++ added
    /\ migrates (trace w') = migrates (trace w) ++ map name added ++ tail
    /\ Forall (fun r => applied r = true) added
    /\ (List.length tail <= 1)%nat
    /\ (res = inr tt -> tail = [])
    /\ rollbacks (trace w') = rollbacks (trace w).
Proof.
  intros Hq. induction l as [|f l IH]; intros w.
  - cbn. exists [], []. cbn. rewrite !app_nil_r. repeat split; auto.
  - rewrite for_each_cons.
    pose proof (@apply_migration_record D env (PyStr.drop_last3 f)
                  (PyStr.join path [f]) w (Hq _ _)) as H1.
    fold (loop_body env path f) in H1.
    destruct (loop_body env path f w) as [[e|[]] w1].
    + destruct H1 as (added & tail & Hc & Hm & Ha & Ht & Hr & Hb).
      exists added, tail. repeat split; auto; discriminate.
    + destruct H1 as (added1 & tail1 & Hc1 & Hm1 & Ha1 & Ht1 & Hr1 & Hb1).
      rewrite (Hr1 eq_refl) in Hm1. rewrite app_nil_r in Hm1.
      specialize (IH w1).
      destruct (for_each l (loop_body env path) w1) as [res w2].
      destruct IH as (added2 & tail2 & Hc2 & Hm2 & Ha2 & Ht2 & Hr2 & Hb2).
      exists (added1 ++ added2), tail2.
      rewrite Hc2, Hc1, Hm2, Hm1, Hb2, Hb1, map_app, <- !app_assoc.
      repeat split; auto. apply Forall_app. now split.
Qed.

(** X5.  When no unit of the directory writes the [migrations] collection
    itself, then whatever the directory holds and however the run ends,
    [apply_all_migrations] only appends to the collection, and the records
    it appends are those of the [migrate] calls of the run, in the order of
    the calls, each with [applied = True]: at most the last [migrate] call
    of the run has no record (it raised, or its insert did), and none is
    without when the run returns normally.  No unit is reverted. *)
Theorem apply_all_migrations_records {D} (env : environment D)
  module_name migrations_dir (w : world D) :
  (forall nm p u, load env nm p = inr u ->
                  leaves_collection (BaseMigration.migrate u)) ->
  let (res, w') := apply_all_migrations env module_name migrations_dir w in
  exists added tail,
    migrations_collection w' = migrations_collection w ++ added
    /\ migrates (trace w') = migrates (trace w) ++ map name added ++ tail
    /\ Forall (fun r => applied r = true) added
    /\ (List.length tail <= 1)%nat
    /\ (res = inr tt -> tail = [])
    /\ rollbacks (trace w') = rollbacks (trace w).
Proof.
  intros Hq. rewrite apply_all_migrations_eq. unfold bind.
  set (path := migrations_path_of env module_name migrations_dir).
  rewrite migration_files_eq.
  assert (Hno : forall res : exn + unit,
             exists added tail : list _,
               migrations_collection (logged w [EvListdir path])
               = migrations_collection w ++ added
               /\ migrates (trace (logged w [EvListdir path]))
                  = migrates (trace w) ++ map name added ++ tail
               /\ Forall (fun r => applied r = true) added
               /\ (List.length tail <= 1)%nat
               /\ (res = inr tt -> tail = [])
               /\ rollbacks (trace (logged w [EvListdir path]))
                  = rollbacks (trace w)).
  { intros res. exists [], []. cbn. rewrite migrates_app, rollbacks_app. cbn.
    rewrite !app_nil_r. repeat split; auto. }
  destruct (stat env path) as [| |entries].
  - exists [], []. cbn. rewrite !app_nil_r. repeat split; auto.
  - apply Hno.
  - destruct (find _ _); [apply Hno|].
    pose proof (@for_each_record D env path
                  (sort_by key_default (filter is_candidate entries)) Hq
                  (logged w [EvListdir path])) as H.
    destruct (for_each _ _ _) as [res w'].
    destruct H as (added & tail & Hc & Hm & Ha & Ht & Hr & Hb).
    exists added, tail. rewrite Hc, Hm, Hb. cbn.
    rewrite migrates_app, rollbacks_app. cbn. rewrite !app_nil_r.
    repeat split; auto.
Qed.

Lemma env_failing_leaves_collection :
  forall nm p u, load Fixture.env_failing nm p = inr u ->
                 leaves_collection (BaseMigration.migrate u).
Proof.
  intros nm p u H. cbn in H. unfold Fixture.loader in H.
  repeat (destruct (String.eqb p _);
          [inversion H; intros c d; reflexivity|]).
  discriminate H.
Qed.

Lemma apply_all_migrations_records_witness :
  let (res, w') :=
    apply_all_migrations Fixture.env_failing (Some "app") "migrations" Fixture.w0 in
  exists added tail,
    migrations_collection w' = migrations_collection Fixture.w0 ++ added
    /\ migrates (trace w') = migrates (trace Fixture.w0) ++ map name added ++ tail
    /\ Forall (fun r => applied r = true) added
    /\ (List.length tail <= 1)%nat
    /\ (res = inr tt -> tail = [])
    /\ rollbacks (trace w') = rollbacks (trace Fixture.w0).
Proof.
  apply (@apply_all_migrations_records nat Fixture.env_failing (Some "app")
           "migrations" Fixture.w0).
  exact env_failing_leaves_collection.
Defined.

Lemma In_firstn_in {A} k (l : list A) x : In x (firstn k l) -> In x l.
Proof.
  intros H. rewrite <- (firstn_skipn k l). apply in_or_app. now left.
Qed.

(** The files a loop loads are the first files of its list. *)
Lemma for_each_loads {D} (env : environment D) path l : forall (w : world D),
  exists k,
    loads (trace (snd (for_each l (loop_body env path) w)))
    = loads (trace w) ++ map (fun g => PyStr.join path [g]) (firstn k l).
Proof.
  induction l as [|f l IH]; intros w.
  - exists 0%nat. cbn. now rewrite app_nil_r.
  - rewrite for_each_cons.
    pose proof (apply_migration_trace env (PyStr.drop_last3 f)
                  (PyStr.join path [f]) w) as [Hl _].
    fold (loop_body env path f) in Hl.
    destruct (loop_body env path f w) as [[e|[]] w1]; cbn [snd] in *.
    + exists 1%nat. cbn. exact Hl.
    + destruct (IH w1) as [k Hk]. exists (S k). rewrite Hk, Hl, <- app_assoc.
      reflexivity.
Qed.

(** X4.  The files [apply_all_migrations] loads come from the sorted list
    of candidates only.  For a directory whose candidates all have an
    integer key the files loaded are the first files of that list, in that
    order: a name that does not end in [.py] or that starts with [__] (such
    as [__init__.py]) is never loaded.  Nothing at all is loaded when the
    path is no directory, or when some candidate has no integer key and the
    sort raises. *)
Theorem apply_all_migrations_loads {D} (env : environment D)
  module_name migrations_dir (w : world D) :
  let path := migrations_path_of env module_name migrations_dir in
  let w' := snd (apply_all_migrations env module_name migrations_dir w) in
  (forall entries,
      stat env path = Directory entries ->
      (forall f, In f entries -> is_candidate f = true -> key_of f <> None) ->
      exists loaded rest,
        loads (trace w')
        = loads (trace w) ++ map (fun g => PyStr.join path [g]) loaded
        /\ sort_by key_default (filter is_candidate entries) = loaded ++ rest
        /\ forall f, In f loaded -> In f entries /\ is_candidate f = true)
  /\ ((forall entries, stat env path <> Directory entries) ->
      loads (trace w') = loads (trace w))
  /\ (forall entries f,
        stat env path = Directory entries ->
        In f entries -> is_candidate f = true -> key_of f = None ->
        loads (trace w') = loads (trace w)).
Proof.
  intros path w'. subst w'. rewrite apply_all_migrations_eq. fold path.
  unfold bind. rewrite migration_files_eq.
  assert (Hlog : loads (trace (logged w [EvListdir path])) = loads (trace w)).
  { cbn. rewrite loads_app. cbn. now rewrite app_nil_r. }
  split; [|split].
  - intros entries Hs Hk. rewrite Hs.
    destruct (find _ _) as [g|] eqn:E.
    { exfalso. apply find_some in E. destruct E as [Hin Hno].
      apply filter_In in Hin. destruct Hin as [Hin Hc].
      specialize (Hk g Hin Hc). unfold has_key in Hno.
      destruct (key_of g); [discriminate | congruence]. }
    set (files := sort_by key_default (filter is_candidate entries)).
    destruct (for_each_loads env path files (logged w [EvListdir path])) as [k Hk'].
    exists (firstn k files), (skipn k files). split; [|split].
    + rewrite Hk', Hlog. reflexivity.
    + symmetry. apply firstn_skipn.
    + intros f Hf. apply filter_In.
      apply (Permutation_in f (sort_by_perm key_default (filter is_candidate entries))).
      fold files. apply (In_firstn_in k _ _ Hf).
  - intros Hno. destruct (stat env path) as [| |entries] eqn:Hs.
    + reflexivity.
    + exact Hlog.
    + exfalso. exact (Hno entries eq_refl).
  - intros entries f Hs Hin Hc Hk. rewrite Hs.
    destruct (find _ _) as [g|] eqn:E; [exact Hlog|].
    exfalso. pose proof (find_none _ _ E f) as Hn.
    rewrite filter_In in Hn. specialize (Hn (conj Hin Hc)).
    unfold has_key in Hn. rewrite Hk in Hn. discriminate.
Qed.

Lemma apply_all_migrations_loads_witness :
  (exists loaded rest,
      loads (trace (snd (apply_all_migrations Fixture.env_failing (Some "app")
                           "migrations" Fixture.w0)))
      = loads (trace Fixture.w0) ++ map (fun g => PyStr.join Fixture.dir [g]) loaded
      /\ sort_by key_default (filter is_candidate Fixture.listing) = loaded ++ rest
      /\ forall f, In f loaded -> In f Fixture.listing /\ is_candidate f = true)
  /\ loads (trace (snd (apply_all_migrations Fixture.env_notes (Some "app")
                          "migrations" Fixture.w0)))
     = loads (trace Fixture.w0).
Proof.
  split.
  - apply (proj1 (@apply_all_migrations_loads nat Fixture.env_failing (Some "app")
                    "migrations" Fixture.w0) Fixture.listing eq_refl).
    intros f Hin Hc.
    repeat (destruct Hin as [<- | Hin];
            [try discriminate Hc; vm_compute; discriminate|]).
    destruct Hin.
  - apply (proj2 (proj2 (@apply_all_migrations_loads nat Fixture.env_notes
                           (Some "app") "migrations" Fixture.w0))
             ["0001_a.py"; "notes.py"] "notes.py" eq_refl).
    + right. left. reflexivity.
    + reflexivity.
    + reflexivity.
Defined.

(** ** Discovery and the order of the listing *)

Lemma Permutation_filter_same {A} (p : A -> bool) l1 l2 :
  Permutation l1 l2 -> Permutation (filter p l1) (filter p l2).
Proof.
  induction 1 as [|x l1 l2 _ IH|x y l|l1 l2 l3 _ IH1 _ IH2]; cbn.
  - constructor.
  - destruct (p x); [now constructor | exact IH].
  - destruct (p x), (p y); try apply Permutation_refl. apply perm_swap.
  - eapply Permutation_trans; eassumption.
Qed.

Lemma filter_all {A} (p : A -> bool) l :
  (forall x, In x l -> p x = true) -> filter p l = l.
Proof.
  induction l as [|x l IH]; intros H; cbn; [reflexivity|].
  rewrite (H x (or_introl eq_refl)). f_equal. apply IH.
  intros y Hy. apply H. now right.
Qed.

(** Two lists sorted by a key that tells their elements apart are equal as
    soon as they have the same elements. *)
Lemma sorted_perm_eq_by {A} (key : A -> Z) (l1 : list A) : forall l2,
  StronglySorted (fun a b => (key a <= key b)%Z) l1 ->
  StronglySorted (fun a b => (key a <= key b)%Z) l2 ->
  NoDup (map key l1) ->
  Permutation l1 l2 -> l1 = l2.
Proof.
  induction l1 as [|a l1 IH]; intros l2 H1 H2 Hnd Hp.
  - apply Permutation_nil in Hp. now subst.
  - destruct l2 as [|b l2].
    + apply Permutation_sym, Permutation_nil in Hp. discriminate.
    + inversion H1 as [|? ? Hs1 Ha]; subst.
      inversion H2 as [|? ? Hs2 Hb]; subst.
      cbn in Hnd. inversion Hnd as [|? ? Hna Hnd1]; subst.
      assert (a = b).
      { assert (Hin1 : In a (b :: l2))
          by (eapply Permutation_in; [exact Hp | now left]).
        assert (Hin2 : In b (a :: l1))
          by (eapply Permutation_in; [exact (Permutation_sym Hp) | now left]).
        rewrite Forall_forall in Ha, Hb.
        destruct Hin1 as [E | Hin1]; [now subst|].
        destruct Hin2 as [E | Hin2]; [now subst|].
        specialize (Ha b Hin2). specialize (Hb a Hin1).
        exfalso. apply Hna. replace (key a) with (key b) by lia.
        now apply in_map. }
      subst b. f_equal. apply IH; try assumption.
      eapply Permutation_cons_inv; exact Hp.
Qed.

(** X6.  When the candidates of a directory all have a key and no two of
    them the same, the list discovery returns does not depend on the order
    in which the directory lists its entries. *)
Theorem migration_files_any_listing_order {D} (env1 env2 : environment D) path
  (w1 w2 : world D) entries1 entries2 :
  stat env1 path = Directory entries1 ->
  stat env2 path = Directory entries2 ->
  Permutation entries1 entries2 ->
  (forall f, In f entries1 -> is_candidate f = true -> key_of f <> None) ->
  NoDup (map key_default (filter is_candidate entries1)) ->
  exists files,
    fst (migration_files env1 path w1) = inr files
    /\ fst (migration_files env2 path w2) = inr files.
Proof.
  intros Hs1 Hs2 Hp Hk Hnd.
  assert (Hpf : Permutation (filter is_candidate entries1)
                            (filter is_candidate entries2))
    by now apply Permutation_filter_same.
  assert (Hfind : forall entries,
             Permutation (filter is_candidate entries1)
                         (filter is_candidate entries) ->
             find (fun f => negb (has_key f)) (filter is_candidate entries) = None).
  { intros entries Hpe.
    destruct (find _ _) as [f|] eqn:E; [|reflexivity].
    apply find_some in E. destruct E as [Hin Hno].
    apply (Permutation_in f (Permutation_sym Hpe)) in Hin.
    apply filter_In in Hin. destruct Hin as [Hin Hc].
    specialize (Hk f Hin Hc). unfold has_key in Hno.
    destruct (key_of f); [discriminate | congruence]. }
  exists (sort_by key_default (filter is_candidate entries1)).
  rewrite !migration_files_eq, Hs1, Hs2.
  rewrite (Hfind entries1 (Permutation_refl _)), (Hfind entries2 Hpf).
  cbn [fst]. split; [reflexivity|]. f_equal. symmetry.
  apply sorted_perm_eq_by with (key := key_default).
  - apply sort_by_sorted.
  - apply sort_by_sorted.
  - apply (Permutation_NoDup (l := map key_default (filter is_candidate entries1)));
      [|exact Hnd].
    apply Permutation_map, Permutation_sym, sort_by_perm.
  - eapply Permutation_trans; [apply sort_by_perm|].
    eapply Permutation_trans; [exact Hpf|].
    apply Permutation_sym, sort_by_perm.
Qed.

Lemma migration_files_any_listing_order_witness :
  exists files,
    fst (migration_files Fixture.env_distinct Fixture.dir Fixture.w0) = inr files
    /\ fst (migration_files RunFixture.env_reversed Fixture.dir Fixture.w_a)
       = inr files.
Proof.
  apply (@migration_files_any_listing_order nat Fixture.env_distinct
           RunFixture.env_reversed Fixture.dir
           Fixture.w0 Fixture.w_a Fixture.listing
           ["0003_c.py"; "README.md"; "0001_a.py"; "__init__.py"; "0002_b.py"]).
  - reflexivity.
  - reflexivity.
  - exact (Permutation_rev Fixture.listing).
  - intros f Hin Hc.
    repeat (destruct Hin as [<- | Hin]; [try discriminate Hc; vm_compute; discriminate|]).
    destruct Hin.
  - vm_compute. repeat constructor; cbn; intuition discriminate.
Defined.

(** X14.  Candidates of one and the same key come out of discovery in the
    order of the listing: between files that share an order, which is
    applied first is decided by [os.listdir]. *)
Theorem migration_files_same_key {D} (env : environment D) path (w : world D)
  entries k :
  stat env path = Directory entries ->
  (forall f, In f entries -> is_candidate f = true -> key_of f = Some k) ->
  migration_files env path w
  = (inr (filter is_candidate entries), logged w [EvListdir path]).
Proof.
  intros Hs Hk.
  assert (Hkd : forall f, In f (filter is_candidate entries) ->
                          (key_default f =? k)%Z = true).
  { intros f Hf. apply filter_In in Hf. destruct Hf as [Hin Hc].
    unfold key_default. rewrite (Hk f Hin Hc). apply Z.eqb_refl. }
  rewrite migration_files_eq, Hs.
  destruct (find _ _) as [f|] eqn:E.
  - apply find_some in E. destruct E as [Hin Hno].
    apply filter_In in Hin. destruct Hin as [Hin Hc].
    unfold has_key in Hno. rewrite (Hk f Hin Hc) in Hno. discriminate.
  - f_equal. f_equal.
    pose proof (sort_by_stable key_default (filter is_candidate entries) k) as Hst.
    rewrite (filter_all _ _ Hkd) in Hst.
    rewrite filter_all in Hst; [exact Hst|].
    intros f Hf. apply Hkd.
    eapply Permutation_in; [apply sort_by_perm | exact Hf].
Qed.

Lemma migration_files_same_key_witness :
  migration_files RunFixture.env_tie Fixture.dir Fixture.w0
  = (inr (filter is_candidate ["0001_b.py"; "1_a.py"; "x.txt"]),
     logged Fixture.w0 [EvListdir Fixture.dir]).
Proof.
  apply (@migration_files_same_key nat RunFixture.env_tie Fixture.dir Fixture.w0
           ["0001_b.py"; "1_a.py"; "x.txt"] 1%Z).
  - reflexivity.
  - intros f Hin Hc.
    repeat (destruct Hin as [<- | Hin]; [try discriminate Hc; reflexivity|]).
    destruct Hin.
Defined.

(** ** The integer of a file name *)

Lemma append_empty (s : string) : (s ++ EmptyString)%string = s.
Proof. induction s as [|c s IH]; cbn; [reflexivity | now rewrite IH]. Qed.

Lemma all_digits_no_underscore s :
  all_digits s = true -> ~ In "_"%char (chars s).
Proof.
  induction s as [|c s IH]; cbn; [tauto|].
  destruct (PyStr.digit_value c) eqn:E; [|discriminate].
  intros H [Hc | Hin]; [|exact (IH H Hin)].
  subst c. vm_compute in E. discriminate.
Qed.

Lemma decimal_bounds s : forall acc,
  (0 <= acc)%Z -> (0 <= decimal acc s)%Z.
Proof.
  induction s as [|c s IH]; intros acc Hacc; cbn [decimal]; [exact Hacc|].
  destruct (PyStr.digit_value c) as [d|] eqn:E; [|exact Hacc].
  apply IH. unfold PyStr.digit_value in E. cbv zeta in E.
  destruct ((48 <=? nat_of_ascii c)%nat && (nat_of_ascii c <=? 57)%nat);
    [|discriminate].
  inversion E. lia.
Qed.

(** X13.  A name made of decimal digits, an underscore and anything after it
    has as key the number the digits write, in base 10 and whatever the
    zeros in front: the order is numeric, not the order of the strings, and
    it is never negative for such names.  The candidate's module name
    [filename[:-3]] gives [apply_migration] the same number. *)
Theorem key_of_digits ds rest :
  ds <> EmptyString ->
  all_digits ds = true ->
  key_of (ds ++ String "_" rest)%string = Some (decimal 0 ds)
  /\ (0 <= decimal 0 ds)%Z
  /\ key_of (String "0" ds ++ String "_" rest)%string
     = key_of (ds ++ String "_" rest)%string
  /\ (PyStr.endswith (ds ++ String "_" rest)%string ".py" = true ->
      PyStr.int (PyStr.split_head "_"
                   (PyStr.drop_last3 (ds ++ String "_" rest)%string))
      = Some (decimal 0 ds)).
Proof.
  intros Hne Hd.
  assert (Hkey : forall s, s <> EmptyString -> all_digits s = true ->
                 key_of (s ++ String "_" rest)%string = Some (decimal 0 s)).
  { intros s Hs Hds. unfold key_of.
    rewrite split_head_app_notin by now apply all_digits_no_underscore.
    cbn [PyStr.split_head]. rewrite Ascii.eqb_refl, append_empty.
    now apply int_digits. }
  split; [now apply Hkey|]. split; [now apply decimal_bounds|]. split.
  - rewrite (Hkey ds Hne Hd).
    change (String "0" ds ++ String "_" rest)%string
      with ((String "0" ds) ++ String "_" rest)%string.
    rewrite Hkey; [reflexivity | discriminate | exact Hd].
  - intros Hpy. apply module_name_key; [exact Hpy | now apply Hkey].
Qed.

Lemma key_of_digits_witness :
  key_of ("0010" ++ String "_" "add_index.py")%string = Some (decimal 0 "0010")
  /\ (0 <= decimal 0 "0010")%Z
  /\ key_of (String "0" "0010" ++ String "_" "add_index.py")%string
     = key_of ("0010" ++ String "_" "add_index.py")%string
  /\ (PyStr.endswith ("0010" ++ String "_" "add_index.py")%string ".py" = true ->
      PyStr.int (PyStr.split_head "_"
                   (PyStr.drop_last3 ("0010" ++ String "_" "add_index.py")%string))
      = Some (decimal 0 "0010")).
Proof.
  apply (@key_of_digits "0010" "add_index.py").
  - discriminate.
  - reflexivity.
Defined.

(** X16.  A directory without candidates -- empty, or holding only names
    such as [__init__.py] or files that are no [.py] -- is no error: the
    run lists it, loads nothing, applies nothing and returns normally. *)
Theorem apply_all_migrations_no_candidates {D} (env : environment D)
  module_name migrations_dir (w : world D) entries :
  let path := migrations_path_of env module_name migrations_dir in
  stat env path = Directory entries ->
  (forall f, In f entries -> is_candidate f = false) ->
  apply_all_migrations env module_name migrations_dir w
  = (inr tt, logged w [EvListdir path]).
Proof.
  intros path Hs Hnone.
  assert (Hf : filter is_candidate entries = []).
  { clear Hs. induction entries as [|f entries IH]; [reflexivity|].
    cbn. rewrite (Hnone f (or_introl eq_refl)). apply IH.
    intros g Hg. apply Hnone. now right. }
  rewrite apply_all_migrations_eq. fold path. unfold bind.
  rewrite migration_files_eq, Hs, Hf. reflexivity.
Qed.

Lemma apply_all_migrations_no_candidates_witness :
  apply_all_migrations RunFixture.env_bare (Some "app") "migrations" Fixture.w_a
  = (inr tt, logged Fixture.w_a [EvListdir Fixture.dir]).
Proof.
  apply (@apply_all_migrations_no_candidates nat RunFixture.env_bare (Some "app")
           "migrations" Fixture.w_a ["__init__.py"; "README.md"; "__pycache__"]).
  - reflexivity.
  - intros f Hin.
    repeat (destruct Hin as [<- | Hin]; [reflexivity|]). destruct Hin.
Defined.

(** ** Runs over a collection that already has records *)






Section Resume.

Context {D : Type}.
Variable env : environment D.
Variable path : string.
Variable unit_of : string -> BaseMigration.t D.


End Resume.






(** ** The command line *)

Lemma endswith_py_drop_last3 f :
  PyStr.endswith f ".py" = true -> (PyStr.drop_last3 f ++ ".py")%string = f.
Proof.
  intros H. destruct (endswith_app _ _ H) as [pre ->].
  now rewrite drop_last3_py.
Qed.

Lemma for_each_ext {D A} (body1 body2 : A -> M D unit) l :
  (forall x, In x l -> forall w, body1 x w = body2 x w) ->
  forall w, for_each l body1 w = for_each l body2 w.
Proof.
  induction l as [|x l IH]; intros H w; [reflexivity|].
  cbn [for_each]. unfold bind. rewrite (H x (or_introl eq_refl) w).
  destruct (body2 x w) as [[e|[]] w']; [reflexivity|].
  apply IH. intros y Hy. apply H. now right.
Qed.

Section MainFacts.

Context {D : Type}.
Variable h : Cli.host D.

Lemma migration_path_of_join args :
  Cli.migration_path_of h args
  = PyStr.join (migrations_path_of (Cli.host_env h) (Cli.module args) "migrations")
      [(Cli.migration args ++ ".py")%string].
Proof.
  unfold Cli.migration_path_of, migrations_path_of.
  destruct (Cli.module args) as [m|]; [destruct (PyStr.truthy m)|]; reflexivity.
Qed.

Lemma main_dispatch args (w : world D) :
  settings_fine h ->
  Cli.main h args w
  = (if String.eqb (Cli.command args) "migrate" then
       apply_all_migrations (Cli.host_env h) (Cli.module args) "migrations"
     else if String.eqb (Cli.command args) "migrate-one" then
       apply_migration (Cli.host_env h) (Cli.migration args) (Cli.migration_path_of h args)
     else if String.eqb (Cli.command args) "rollback" then
       rollback_migration (Cli.host_env h) (Cli.migration args) (Cli.migration_path_of h args)
     else ret tt) w.
Proof.
  intros (Hs & He & Hi).
  unfold Cli.main, Cli.import_settings, exists_, bind.
  destruct (stat (Cli.host_env h) _) eqn:E; [congruence | |];
    cbn [negb]; rewrite He, Hi; reflexivity.
Qed.

End MainFacts.

(** X10.  [main] does nothing before the settings are there: without a
    [settings.py] in the working directory it raises [FileNotFoundError]
    for that path, and when importing the file or building the manager
    raises it passes that exception on; in each case the world is untouched
    -- no directory listed, no file loaded, no unit called -- whatever the
    command. *)
Theorem main_needs_settings {D} (h : Cli.host D) args (w : world D) :
  let settings_path := PyStr.join (getcwd (Cli.host_env h)) ["settings.py"] in
  (stat (Cli.host_env h) settings_path = Absent ->
   Cli.main h args w = (inl (FileNotFoundError settings_path), w))
  /\ (forall e,
        stat (Cli.host_env h) settings_path <> Absent ->
        Cli.settings_exec h = Some e ->
        Cli.main h args w = (inl e, w))
  /\ (forall e,
        stat (Cli.host_env h) settings_path <> Absent ->
        Cli.settings_exec h = None ->
        Cli.manager_init h = Some e ->
        Cli.main h args w = (inl e, w)).
Proof.
  intros settings_path. unfold Cli.main, Cli.import_settings, exists_, bind.
  fold settings_path. split; [|split].
  - intros ->. reflexivity.
  - intros e Hs He.
    destruct (stat (Cli.host_env h) settings_path); [congruence | |];
      cbn [negb]; rewrite He; reflexivity.
  - intros e Hs He Hi.
    destruct (stat (Cli.host_env h) settings_path); [congruence | |];
      cbn [negb]; rewrite He, Hi; reflexivity.
Qed.

Lemma main_needs_settings_witness :
  Cli.main CliFixture.host_bare (Cli.Namespace "migrate" (Some "app") "0001_a")
    Fixture.w0
  = (inl (FileNotFoundError "/srv/settings.py"), Fixture.w0).
Proof.
  apply (proj1 (@main_needs_settings nat CliFixture.host_bare
                  (Cli.Namespace "migrate" (Some "app") "0001_a") Fixture.w0)).
  reflexivity.
Defined.

(** X11.  [migrate-one M X] does to the file [X.py] exactly what the loop of
    [migrate M] does to it -- the same module name and the same path, hence
    the same load, the same gate and the same record -- and [rollback M X]
    rolls back the unit of that same path. *)
Theorem main_migrate_one {D} (h : Cli.host D) args (w : world D) :
  settings_fine h ->
  let env := Cli.host_env h in
  let path := migrations_path_of env (Cli.module args) "migrations" in
  let filename := (Cli.migration args ++ ".py")%string in
  (Cli.command args = "migrate-one" ->
   Cli.main h args w = loop_body env path filename w)
  /\ (Cli.command args = "rollback" ->
      Cli.main h args w
      = rollback_migration env (Cli.migration args) (PyStr.join path [filename]) w).
Proof.
  intros Hs env path filename. split; intros Hc.
  - rewrite (@main_dispatch D h args w Hs), Hc. cbn [String.eqb Ascii.eqb Bool.eqb].
    unfold loop_body, filename. rewrite drop_last3_py, migration_path_of_join.
    reflexivity.
  - rewrite (@main_dispatch D h args w Hs), Hc. cbn [String.eqb Ascii.eqb Bool.eqb].
    rewrite migration_path_of_join. reflexivity.
Qed.

Lemma main_migrate_one_witness :
  let args := Cli.Namespace "migrate-one" (Some "app") "0001_a" in
  let env := Cli.host_env CliFixture.host_ok in
  let path := migrations_path_of env (Cli.module args) "migrations" in
  let filename := (Cli.migration args ++ ".py")%string in
  Cli.main CliFixture.host_ok args Fixture.w0 = loop_body env path filename Fixture.w0.
Proof.
  intros args.
  assert (Hs : settings_fine CliFixture.host_ok)
    by (split; [discriminate | split; reflexivity]).
  apply (proj1 (@main_migrate_one nat CliFixture.host_ok args Fixture.w0 Hs)).
  reflexivity.
Defined.

(** X12.  [migrate M] is discovery followed by [migrate-one M X] for every
    file [X.py] discovered, in sorted order, up to the first that raises. *)
Theorem main_migrate_as_migrate_one {D} (h : Cli.host D) module migration
  (w : world D) :
  settings_fine h ->
  let env := Cli.host_env h in
  Cli.main h (Cli.Namespace "migrate" module migration) w
  = (files <- migration_files env (migrations_path_of env module "migrations") ;;
     for_each files (fun filename =>
       Cli.main h (Cli.Namespace "migrate-one" module (PyStr.drop_last3 filename)))) w.
Proof.
  intros Hs env. rewrite (@main_dispatch D h _ w Hs).
  cbn [Cli.command Cli.module String.eqb Ascii.eqb Bool.eqb].
  fold env. rewrite apply_all_migrations_eq. unfold bind.
  set (path := migrations_path_of env module "migrations").
  rewrite migration_files_eq.
  destruct (stat env path) as [| |entries]; try reflexivity.
  destruct (find _ _); [reflexivity|].
  apply for_each_ext. intros f Hf w'.
  assert (Hpy : PyStr.endswith f ".py" = true).
  { apply (Permutation_in f (sort_by_perm key_default _)) in Hf.
    apply filter_In in Hf. destruct Hf as [_ Hc].
    unfold is_candidate in Hc. apply andb_true_iff in Hc. tauto. }
  rewrite (@main_dispatch D h
             (Cli.Namespace "migrate-one" module (PyStr.drop_last3 f)) w' Hs).
  cbn [Cli.command Cli.module Cli.migration String.eqb Ascii.eqb Bool.eqb].
  rewrite migration_path_of_join. cbn [Cli.module Cli.migration].
  fold env. fold path. rewrite endswith_py_drop_last3; [reflexivity | exact Hpy].
Qed.

Lemma main_migrate_as_migrate_one_witness :
  Cli.main CliFixture.host_ok (Cli.Namespace "migrate" (Some "app") EmptyString)
    Fixture.w0
  = (files <- migration_files CliFixture.env
                (migrations_path_of CliFixture.env (Some "app") "migrations") ;;
     for_each files (fun filename =>
       Cli.main CliFixture.host_ok
         (Cli.Namespace "migrate-one" (Some "app") (PyStr.drop_last3 filename))))
      Fixture.w0.
Proof.
  apply (@main_migrate_as_migrate_one nat CliFixture.host_ok (Some "app")
           EmptyString Fixture.w0).
  split; [discriminate | split; reflexivity].
Defined.
